(** * flask-invoice-api: the allocation pipeline of [main1.py]

    A shallow embedding of [extract_invoice_amount], [process_excel_file]
    and [process_invoice], and the properties of the pipeline; then of
    [allowed_file], of the file names the run derives from the name of the
    workbook, and of [download_file].

    Conventions of the embedding.
    - A Python/NumPy float is an extended rational [fval]: finite values are
      exact rationals, and the IEEE special values that an unguarded
      division produces (NaN, +inf, -inf) are kept.  Binary rounding error
      of finite values is left out.
    - What a library call reads from a file is an input of the model: the
      frame [pd.read_excel] returns for each [skiprows], the text of the
      first PDF page, the first row of the template sheet, the two columns
      of the master file.  A call that raises is an [Err] carrying the
      exception text.
    - [sort_values] is a parameter of the model, a [Sorter]: NumPy's default
      quicksort returns a sorted permutation ([SorterOk]) and does not
      promise to keep rows with equal sort keys in their former order
      ([SorterStable]).  An insertion sort is the instance the model runs
      with.
    - Text is ASCII: [str.lower], [str.strip], [str.isspace] and the
      classes of the regular expression are taken on ASCII characters.
    - The two folders are maps from paths to files, and paths are those of
      [os.path] on POSIX.  The name of an uploaded part is the name
      [secure_filename] returns, which has no separator. *)

From Stdlib Require Import QArith Qround Qabs ZArith Lia Lqa String Ascii Sorted.
From Stdlib Require Import DecimalString.
From Stdlib Require DecimalPos DecimalFacts DecimalZ OrderedTypeEx.
From stdpp Require Import gmap strings list fin_maps.

Local Open Scope string_scope.

(** ** Floats *)

Module Float.

Inductive fval : Type :=
  | NaN
  | PInf
  | NInf
  | Fin (q : Q).

Definition Qsgn (q : Q) : Z := Z.sgn (Qnum q).


Definition inf_of_sign (s : Z) : fval :=
  match s with
  | Z0 => NaN
  | Zpos _ => PInf
  | Zneg _ => NInf
  end.

Definition sgn (x : fval) : Z :=
  match x with
  | NaN => 0
  | PInf => 1
  | NInf => -1
  | Fin q => Qsgn q
  end.

Definition add (x y : fval) : fval :=
  match x, y with
  | NaN, _ | _, NaN => NaN
  | PInf, NInf | NInf, PInf => NaN
  | PInf, _ | _, PInf => PInf
  | NInf, _ | _, NInf => NInf
  | Fin a, Fin b => Fin (a + b)
  end.


(** [x * y]: an infinity times zero is NaN. *)
Definition mul (x y : fval) : fval :=
  match x, y with
  | NaN, _ | _, NaN => NaN
  | Fin a, Fin b => Fin (a * b)
  | _, _ => inf_of_sign (sgn x * sgn y)
  end.

(** [x / y] as NumPy computes it: no exception, a finite value over zero is
    an infinity of its sign, zero over zero is NaN. *)
Definition div (x y : fval) : fval :=
  match x, y with
  | NaN, _ | _, NaN => NaN
  | Fin a, Fin b =>
      if Qeq_bool b 0 then inf_of_sign (Qsgn a) else Fin (a / b)
  | Fin _, _ => Fin 0
  | _, Fin b => inf_of_sign (sgn x * (if Qle_bool 0 b then 1 else -1))
  | _, _ => NaN
  end.


(** [x <= y]; every comparison with NaN is false. *)
Definition leb (x y : fval) : bool :=
  match x, y with
  | NaN, _ | _, NaN => false
  | NInf, _ | _, PInf => true
  | PInf, _ | _, NInf => false
  | Fin a, Fin b => Qle_bool a b
  end.

Definition isna (x : fval) : bool :=
  match x with NaN => true | _ => false end.



(** The integer nearest to [q], a tie going to the even one. *)
Definition round_half_even (q : Q) : Z :=
  let f := Qfloor q in
  let r := (q - inject_Z f)%Q in
  match (r ?= 1 # 2)%Q with
  | Lt => f
  | Gt => (f + 1)%Z
  | Eq => if Z.even f then f else (f + 1)%Z
  end.

(** [round(q, 2)] on a finite value. *)
Definition Qround2 (q : Q) : Q :=
  (inject_Z (round_half_even (q * 100)) / 100)%Q.

(** [round(x, 2)]: NaN and the infinities round to themselves. *)
Definition round2 (x : fval) : fval :=
  match x with
  | Fin q => Fin (Qround2 q)
  | _ => x
  end.

(** [int(q)]: truncation toward zero. *)
Definition trunc (q : Q) : Z := Z.quot (Qnum q) (Zpos (Qden q)).

Definition sum (l : list fval) : fval := foldr add (Fin 0) l.

Definition Qsum (l : list Q) : Q := foldr Qplus 0%Q l.

End Float.

Import Float.

(** ** Strings *)

Module Str.

Definition quote : string := String (ascii_of_nat 34) EmptyString.

Definition is_digit (c : ascii) : bool :=
  let n := nat_of_ascii c in (48 <=? n)%nat && (n <=? 57)%nat.

(** ASCII white space as [str.isspace] and the regex class [\s] see it:
    tab, line feed, vertical tab, form feed, carriage return, the four
    separators 28..31 and the space. *)
Definition is_space (c : ascii) : bool :=
  let n := nat_of_ascii c in
  ((9 <=? n)%nat && (n <=? 13)%nat) || ((28 <=? n)%nat && (n <=? 32)%nat).

Fixpoint lstrip (s : string) : string :=
  match s with
  | String c s' => if is_space c then lstrip s' else s
  | EmptyString => EmptyString
  end.

Fixpoint rstrip (s : string) : string :=
  match s with
  | String c s' =>
      match rstrip s' with
      | EmptyString => if is_space c then EmptyString else String c EmptyString
      | r => String c r
      end
  | EmptyString => EmptyString
  end.

(** [s.strip()] *)
Definition strip (s : string) : string := rstrip (lstrip s).

Fixpoint zeros (n : nat) : string :=
  match n with
  | O => EmptyString
  | S n' => String "0" (zeros n')
  end.

(** [s.zfill(width)]: zeros are put after a leading sign; a string of
    [width] characters or more is returned as it is. *)
Definition zfill (width : nat) (s : string) : string :=
  let fill := zeros (width - String.length s) in
  match s with
  | String c s' =>
      if (Ascii.eqb c "+" || Ascii.eqb c "-")%bool
      then String c (fill ++ s')
      else fill ++ s
  | EmptyString => fill
  end.

(** [str(z)] for a Python int. *)
Definition of_Z (z : Z) : string := NilZero.string_of_int (Z.to_int z).

(** The longest prefix whose characters satisfy [p], and the rest. *)
Fixpoint span (p : ascii -> bool) (s : string) : string * string :=
  match s with
  | String c s' =>
      if p c then let '(a, b) := span p s' in (String c a, b)
      else (EmptyString, s)
  | EmptyString => (EmptyString, EmptyString)
  end.

(** Every character of [s] satisfies [p]. *)
Fixpoint all_chars (p : ascii -> bool) (s : string) : bool :=
  match s with
  | String c s' => p c && all_chars p s'
  | EmptyString => true
  end.


Fixpoint strip_prefix (p s : string) : option string :=
  match p, s with
  | EmptyString, _ => Some s
  | String a p', String b s' => if Ascii.eqb a b then strip_prefix p' s' else None
  | String _ _, EmptyString => None
  end.

(** [s.replace(",", "")] *)
Fixpoint remove_commas (s : string) : string :=
  match s with
  | String c s' =>
      if Ascii.eqb c "," then remove_commas s' else String c (remove_commas s')
  | EmptyString => EmptyString
  end.

Definition digit_value (c : ascii) : Z := Z.of_nat (nat_of_ascii c - 48).

Fixpoint digits_value (acc : Z) (s : string) : Z :=
  match s with
  | String c s' => digits_value (10 * acc + digit_value c) s'
  | EmptyString => acc
  end.

End Str.

(** ** Results of calls that may raise *)

Inductive result (A : Type) : Type :=
  | Ok (a : A)
  | Err (text : string).
Arguments Ok {A} a.
Arguments Err {A} text.

(** ** Amount Extractor: [extract_invoice_amount] *)

Module Extractor.
Import Str.

Definition is_amount_char (c : ascii) : bool := is_digit c || Ascii.eqb c ",".

(** A match of [Total Due USD\s+([\d,]+\.\d{2})] that starts at the first
    character of [s]; the result is group 1.  The classes of neighbouring
    pattern items do not overlap, so the greedy match is the only one. *)
Definition match_here (s : string) : option string :=
  match strip_prefix "Total Due USD" s with
  | None => None
  | Some r =>
      let '(ws, r1) := span is_space r in
      match ws with
      | EmptyString => None
      | _ =>
          let '(num, r2) := span is_amount_char r1 in
          match num, r2 with
          | String _ _, String dot (String d1 (String d2 _)) =>
              if Ascii.eqb dot "." && is_digit d1 && is_digit d2
              then Some (num ++ String dot (String d1 (String d2 EmptyString)))
              else None
          | _, _ => None
          end
      end
  end.

(** [re.search]: the match at the leftmost position that has one. *)
Fixpoint search (s : string) : option string :=
  match match_here s with
  | Some g => Some g
  | None =>
      match s with
      | String _ s' => search s'
      | EmptyString => None
      end
  end.

(** [float(s)] for [s] made of digits, a point and digits. *)
Definition float_of_string (s : string) : option Q :=
  let '(ip, r) := span is_digit s in
  match r with
  | String dot fp =>
      let '(fd, rest) := span is_digit fp in
      match rest, fd with
      | EmptyString, String _ _ =>
          if Ascii.eqb dot "."
          then Some (inject_Z (digits_value 0 (ip ++ fd))
                     / inject_Z (10 ^ Z.of_nat (String.length fd)))%Q
          else None
      | _, _ => None
      end
  | EmptyString => None
  end.

Definition not_found_text (text : string) : string :=
  "Amount not found in PDF. Text sample:" ++ String (ascii_of_nat 10) EmptyString
  ++ substring 0 500 text ++ "...".

(** [page] is what [doc[0].get_text()] returns, or the exception of
    [fitz.open]. *)
Definition extract_invoice_amount (page : result string) : result Q :=
  match page with
  | Err e => Err e
  | Ok text =>
      match search text with
      | Some g =>
          match float_of_string (remove_commas g) with
          | Some q => Ok q
          | None => Err "could not convert string to float"
          end
      | None => Err (not_found_text text)
      end
  end.

End Extractor.

(** ** Sorting *)

Module Sorting.

(** The sorting algorithm behind [sort_values] and [groupby]. *)
Class Sorter : Type :=
  sort_with : forall A : Type, (A -> A -> bool) -> list A -> list A.
Arguments sort_with {_ A} le l.

Section Orders.
Context {A : Type} (le : A -> A -> bool).

Definition total : Prop := forall a b, le a b = true \/ le b a = true.

Definition transitive : Prop :=
  forall a b c, le a b = true -> le b c = true -> le a c = true.

Definition sorted (l : list A) : Prop :=
  StronglySorted (fun a b => le a b = true) l.

Fixpoint insert_sorted (x : A) (l : list A) : list A :=
  match l with
  | [] => [x]
  | y :: l' => if le x y then x :: l else y :: insert_sorted x l'
  end.

Definition insertion_sort (l : list A) : list A := foldr insert_sorted [] l.
End Orders.

(** What every sorting algorithm gives: a permutation of its input that
    is in order. *)
Class SorterOk (sorter : Sorter) : Prop := {
  sort_perm : forall (A : Type) (le : A -> A -> bool) (l : list A),
    sort_with le l ≡ₚ l;
  sort_sorted : forall (A : Type) (le : A -> A -> bool) (l : list A),
    total le -> transitive le -> sorted le (sort_with le l)
}.


#[global] Instance insertion_sorter : Sorter := fun A le l => insertion_sort le l.

End Sorting.

(** ** Frames: the part of pandas the pipeline uses *)

Module Frame.
Import Sorting.

(** A row of the input frame, its three used columns:
    ['L01 Material Price Group Key'], ['Inv Net Amt'], ['Material'].
    [None] is a missing cell (NaN). *)
Record line_item : Type := LineItem {
  price_group_key : option string;
  inv_net_amt : option Q;
  material : option Q
}.

(** What [pd.read_excel] returns: the column names and the rows. *)
Record frame : Type := DataFrame {
  columns : list string;
  rows : list line_item
}.

Definition has_column (name : string) (df : frame) : bool :=
  existsb (String.eqb name) (columns df).

(** Missing values go last, whatever the direction. *)
Definition na_last {A B : Type} (proj : A -> option B) (le : B -> B -> bool)
    (x y : A) : bool :=
  match proj x, proj y with
  | Some a, Some b => le a b
  | Some _, None => true
  | None, Some _ => false
  | None, None => true
  end.

(** [pd.notna] on a cell. *)
Definition notna {A : Type} (o : option A) : bool :=
  match o with Some _ => true | None => false end.

(** [df.dropna(subset=['L01 Material Price Group Key'])] *)
Definition dropna_key (l : list line_item) : list line_item :=
  List.filter (fun r => notna (price_group_key r)) l.

(** [df.sort_values(by='L01 Material Price Group Key')] *)
Definition sort_by_key {sorter : Sorter} (l : list line_item) : list line_item :=
  sort_with (na_last price_group_key String.leb) l.

(** [df.sort_values(by='Inv Net Amt', ascending=False)] *)
Definition sort_by_net_desc {sorter : Sorter} (l : list line_item) : list line_item :=
  sort_with (na_last inv_net_amt (fun a b => Qle_bool b a)) l.

Definition key_is (k : string) (r : line_item) : bool :=
  bool_decide (price_group_key r = Some k).

(** The groups of [groupby('L01 Material Price Group Key')]: the distinct
    keys that are present, in ascending order; and the rows of a group, in
    the order of the frame. *)
Definition group_keys {sorter : Sorter} (l : list line_item) : list string :=
  sort_with String.leb (remove_dups (omap price_group_key l)).

Definition group_rows (k : string) (l : list line_item) : list line_item :=
  List.filter (key_is k) l.

(** [.agg({'Inv Net Amt': 'sum'})]: missing amounts are skipped. *)
Definition agg_sum (g : list line_item) : fval :=
  Fin (Qsum (omap inv_net_amt g)).

(** [.first()] on the ['Material'] column: the first value that is not
    missing. *)
Definition first_material (g : list line_item) : option Q :=
  head (omap material g).

(** [pd.merge(left, right, on=key)]: an inner join, in the order of the
    left rows. *)
Definition merge {A B C : Type} (f : string -> A -> B -> C)
    (left : list (string * A)) (right : list (string * B)) : list C :=
  flat_map (fun '(k, a) =>
    map (fun '(_, b) => f k a b)
        (List.filter (fun '(k', _) => String.eqb k' k) right)) left.

End Frame.

(** ** The pipeline: [process_excel_file] *)

Module Pipeline.
Import Str Sorting Frame Extractor.

(** A value in an output row: a Python [str], [float], [int] or [None]. *)
Inductive out_cell : Type :=
  | OStr (s : string)
  | OFloat (x : fval)
  | OInt (z : Z)
  | ONone.

#[global] Instance out_cell_inhabited : Inhabited out_cell := populate (OStr "").

Abbreviation out_row := (list out_cell).

(** The file [to_csv] writes: the header names and the data rows. *)
Record csv_file : Type := Csv {
  csv_headers : list string;
  csv_rows : list out_row
}.

(** What one run reads.
    - [workbook]: [pd.read_excel(input_file_path, skiprows=k)] for each [k];
    - [companion_pdf]: [None] when [os.path.exists(pdf_path)] is false,
      else the text of the first page or the exception of [fitz];
    - [template_row]: the cell values of row 1 of sheet ['Item Upload'];
    - [master_table]: the first two columns of the master file (UPC, item);
    - [output_error]: the exception of [to_csv], if it raises. *)
Record job : Type := Job {
  workbook : result (nat -> frame);
  companion_pdf : option (result string);
  template_row : result (list (option string));
  master_table : result (list (option string * option string));
  output_error : option string
}.

Inductive abort_reason : Type :=
  | RequiredColumnsNotFound
  | PdfNotFound
  | AmountExtractionFailed (text : string)
  | TemplateHeadersNotFound.

(** How a run ends: it prints a message and returns before any output, it
    saves the CSV, or an exception leaves the function. *)
Inductive outcome : Type :=
  | Aborted (why : abort_reason)
  | Saved (csv : csv_file)
  | Raised (text : string).

(** *** Header Locator *)

Definition has_required_columns (df : frame) : bool :=
  has_column "L01 Material Price Group Key" df
  && has_column "Inv Net Amt" df
  && has_column "Material" df.

(** The [for skip in ...: ... break / else] loop. *)
Fixpoint try_skips (read : nat -> frame) (skips : list nat) : option (nat * frame) :=
  match skips with
  | [] => None
  | skip :: rest =>
      let df := read skip in
      if has_required_columns df then Some (skip, df) else try_skips read rest
  end.

Definition locate_header (read : nat -> frame) : option (nat * frame) :=
  try_skips read (seq 0 5).

(** *** Allocator *)

(** A row of [final_df]. *)
Record alloc_row : Type := AllocRow {
  group_key : string;
  net_sum : fval;
  percentage : fval;
  allocated_amount : fval;
  top_material : option Q
}.

(** [Series.sum()]: missing values are skipped. *)
Definition series_sum (l : list fval) : fval :=
  Float.sum (List.filter (fun x => negb (isna x)) l).

Definition grouped {sorter : Sorter} (df : list line_item) : list (string * fval) :=
  map (fun k => (k, agg_sum (group_rows k df))) (group_keys df).

Definition with_amounts (total_due_value : Q) (g : list (string * fval))
    : list (string * (fval * fval * fval)) :=
  let total := series_sum (map snd g) in
  map (fun '(k, s) =>
         let pct := Float.div s total in
         (k, (s, pct, Float.mul pct (Fin total_due_value)))) g.

Definition top_materials {sorter : Sorter} (df : list line_item) : list (string * option Q) :=
  let by_amount := sort_by_net_desc df in
  map (fun k => (k, first_material (group_rows k by_amount))) (group_keys by_amount).

Definition final_df {sorter : Sorter} (df : list line_item) (total_due_value : Q)
    : list alloc_row :=
  merge (fun k '(s, pct, amt) m => AllocRow k s pct amt m)
        (with_amounts total_due_value (grouped df))
        (top_materials df).

(** *** Template Binder *)

Definition template_headers (cells : list (option string)) : list string :=
  omap id cells.

(** [headers.index(name)] *)
Fixpoint index (name : string) (headers : list string) : option nat :=
  match headers with
  | [] => None
  | h :: rest => if String.eqb h name then Some O else S <$> index name rest
  end.

Record indices : Type := Indices {
  material_index : nat;
  amount_index : nat;
  upc_index : nat;
  quantity_index : nat
}.

Definition resolve_indices (headers : list string) : option indices :=
  mi ← index "Item_Number" headers;
  ai ← index "Extended_Amount" headers;
  ui ← index "UPC_Number" headers;
  qi ← index "Quantity" headers;
  Some (Indices mi ai ui qi).

(** *** Row Builder *)

Definition blank_row (num_columns : nat) : out_row := replicate num_columns (OStr "").

Definition build_row (ix : indices) (num_columns : nat) (r : alloc_row) : option out_row :=
  match top_material r with
  | None => None
  | Some m =>
      if isna (allocated_amount r) then None
      else
        let row := blank_row num_columns in
        let row := <[material_index ix := OStr (of_Z (trunc m))]> row in
        let row := <[amount_index ix := OFloat (round2 (allocated_amount r))]> row in
        Some row
  end.

Definition build_rows (ix : indices) (num_columns : nat) (final : list alloc_row)
    : list out_row :=
  omap (build_row ix num_columns) final.

(** *** Identifier Mapper *)

(** [astype(str)] on a cell read with [dtype=str]. *)
Definition astype_str (c : option string) : string := default "nan" c.

(** [drop_duplicates(subset='Item_Number', keep='first')] on (UPC, item)
    pairs. *)
Fixpoint drop_duplicates (seen : list string) (l : list (string * string))
    : list (string * string) :=
  match l with
  | [] => []
  | (upc, item) :: rest =>
      if bool_decide (item ∈ seen) then drop_duplicates seen rest
      else (upc, item) :: drop_duplicates (item :: seen) rest
  end.

(** [dict(zip(master_df['Item_Number'], master_df['UPC']))] *)
Definition to_dict (l : list (string * string)) : gmap string string :=
  foldl (fun d '(upc, item) => <[item := upc]> d) ∅ l.

Definition upc_lookup (table : list (option string * option string))
    : gmap string string :=
  let cleaned :=
    map (fun '(upc, item) => (strip (astype_str upc), strip (astype_str item))) table in
  to_dict (drop_duplicates [] cleaned).

(** The body of the mapping loop.  The item cell holds the [str] written by
    the row builder; the text of a cell that is not a [str] is not
    modelled, and such a row is left as it is. *)
Definition map_upc (ix : indices) (lookup : gmap string string) (row : out_row) : out_row :=
  match row !!! material_index ix with
  | OStr s =>
      let item := strip s in
      let upc_value := default "NA" (lookup !! item) in
      if negb (String.eqb upc_value "NA")
      then <[upc_index ix := OStr ("=" ++ quote ++ zfill 12 upc_value ++ quote)]> row
      else <[upc_index ix := OStr "NA"]> row
  | _ => row
  end.

(** The [try]/[except] around the mapper: when the master file cannot be
    read the rows stay as they are. *)
Definition map_upcs (ix : indices)
    (master : result (list (option string * option string)))
    (data_rows : list out_row) : list out_row :=
  match master with
  | Ok table => map (map_upc ix (upc_lookup table)) data_rows
  | Err _ => data_rows
  end.

(** *** Finalizer *)

(** [cell not in [None, '', 'NA']] *)
Definition populated (c : out_cell) : bool :=
  match c with
  | ONone => false
  | OStr s => negb (String.eqb s "" || String.eqb s "NA")
  | _ => true
  end.

Definition fill_quantity (ix : indices) (row : out_row) : out_row :=
  if populated (row !!! material_index ix)
  then <[quantity_index ix := OInt 1]> row
  else <[quantity_index ix := OStr ""]> row.

(** [while len(data_rows) < 100: data_rows.append([''] * num_columns)];
    [fuel] bounds the number of iterations. *)
Fixpoint pad_loop (fuel : nat) (num_columns : nat) (data_rows : list out_row)
    : list out_row :=
  match fuel with
  | O => data_rows
  | S fuel' =>
      if (length data_rows <? 100)%nat
      then pad_loop fuel' num_columns (data_rows ++ [blank_row num_columns])
      else data_rows
  end.

Definition pad_rows (num_columns : nat) (data_rows : list out_row) : list out_row :=
  pad_loop 100 num_columns data_rows.

(** *** The whole function *)

(** The rows handed to [pd.DataFrame], from the rows of the located frame. *)
Definition output_rows {sorter : Sorter} (ix : indices) (num_columns : nat)
    (master : result (list (option string * option string)))
    (df : list line_item) (total_due_value : Q) : list out_row :=
  let data_rows := build_rows ix num_columns (final_df df total_due_value) in
  let data_rows := map_upcs ix master data_rows in
  let data_rows := map (fill_quantity ix) data_rows in
  pad_rows num_columns data_rows.

Definition process_excel_file {sorter : Sorter} (j : job) : outcome :=
  match workbook j with
  | Err e => Raised e
  | Ok read =>
      match locate_header read with
      | None => Aborted RequiredColumnsNotFound
      | Some (_, found) =>
          let df := sort_by_key (dropna_key (rows found)) in
          match companion_pdf j with
          | None => Aborted PdfNotFound
          | Some page =>
              match extract_invoice_amount page with
              | Err e => Aborted (AmountExtractionFailed e)
              | Ok total_due_value =>
                  match template_row j with
                  | Err e => Raised e
                  | Ok cells =>
                      let headers := template_headers cells in
                      let num_columns := length headers in
                      match resolve_indices headers with
                      | None => Aborted TemplateHeadersNotFound
                      | Some ix =>
                          let data_rows :=
                            output_rows ix num_columns (master_table j) df total_due_value in
                          match output_error j with
                          | Some e => Raised e
                          | None => Saved (Csv headers data_rows)
                          end
                      end
                  end
              end
          end
      end
  end.

(** ** The upload operation: [process_invoice] *)

Record request : Type := Request {
  has_excel : bool;
  has_pdf : bool;
  uploaded : job
}.

Inductive body : Type :=
  | ErrorBody (text : string)
  | MessageBody (text : string).

Record response : Type := Response {
  status : nat;
  payload : body
}.

(** [uploaded] is what the run reads once both files are saved. *)
Definition process_invoice {sorter : Sorter} (req : request) : response :=
  if negb (has_excel req) || negb (has_pdf req)
  then Response 400 (ErrorBody "Excel and PDF files are required!")
  else
    match process_excel_file (uploaded req) with
    | Raised e => Response 500 (ErrorBody ("Error processing files: " ++ e))
    | _ => Response 200 (MessageBody "Files processed successfully!")
    end.

End Pipeline.

(** ** The other functions of [main1.py] *)

Module Server.
Import Str Sorting Frame Pipeline.

(** [c.lower()] on an ASCII letter. *)
Definition lower_char (c : ascii) : ascii :=
  let n := nat_of_ascii c in
  if (65 <=? n)%nat && (n <=? 90)%nat then ascii_of_nat (n + 32) else c.

(** [s.lower()] *)
Fixpoint lower (s : string) : string :=
  match s with
  | String c s' => String (lower_char c) (lower s')
  | EmptyString => EmptyString
  end.

(** [s.rsplit('.', 1)[1]] when ['.' in s]: the text after the last point. *)
Fixpoint after_last_dot (s : string) : option string :=
  match s with
  | String c s' =>
      match after_last_dot s' with
      | Some ext => Some ext
      | None => if Ascii.eqb c "." then Some s' else None
      end
  | EmptyString => None
  end.

Definition ALLOWED_EXTENSIONS : list string := ["xlsx"; "pdf"].

Definition allowed_file (filename : string) : bool :=
  match after_last_dot filename with
  | Some ext => existsb (String.eqb (lower ext)) ALLOWED_EXTENSIONS
  | None => false
  end.

(** *** Paths: [os.path] on POSIX *)

(** The text before the last [c] of [s] and the text after it:
    [(s[:i], s[i+1:])] for [i = s.rfind(c)], when [c] is in [s]. *)
Fixpoint rsplit1 (c : ascii) (s : string) : option (string * string) :=
  match s with
  | String x s' =>
      match rsplit1 c s' with
      | Some (before, after) => Some (String x before, after)
      | None => if Ascii.eqb x c then Some (EmptyString, s') else None
      end
  | EmptyString => None
  end.

(** [s.startswith('/')] and [s.endswith('/')] *)
Definition starts_with_sep (s : string) : bool :=
  match s with String c _ => Ascii.eqb c "/" | EmptyString => false end.

Fixpoint ends_with_sep (s : string) : bool :=
  match s with
  | String c EmptyString => Ascii.eqb c "/"
  | String _ s' => ends_with_sep s'
  | EmptyString => false
  end.

(** [s.rstrip('/')] *)
Fixpoint rstrip_sep (s : string) : string :=
  match s with
  | String c s' =>
      match rstrip_sep s' with
      | EmptyString => if Ascii.eqb c "/" then EmptyString else String c EmptyString
      | r => String c r
      end
  | EmptyString => EmptyString
  end.

(** [os.path.join(a, b)] *)
Definition join (a b : string) : string :=
  if starts_with_sep b then b
  else if String.eqb a "" || ends_with_sep a then a ++ b
  else a ++ "/" ++ b.

(** [os.path.basename(p)] *)
Definition basename (p : string) : string :=
  match rsplit1 "/" p with
  | Some (_, name) => name
  | None => p
  end.

(** [os.path.dirname(p)]: the head up to the last separator, without its
    trailing separators unless it is made of separators only. *)
Definition dirname (p : string) : string :=
  match rsplit1 "/" p with
  | Some (before, _) =>
      let head := before ++ "/" in
      if all_chars (fun c => Ascii.eqb c "/") head then head else rstrip_sep head
  | None => ""
  end.

(** [os.path.splitext(p)[0]]: [p] without the extension of its last
    component; a last point that has only points before it in that
    component starts no extension. *)
Definition splitext_root (p : string) : string :=
  let '(head, name) :=
    match rsplit1 "/" p with
    | Some (before, name) => (before ++ "/", name)
    | None => ("", p)
    end in
  match rsplit1 "." name with
  | Some (root, _) =>
      if all_chars (fun c => Ascii.eqb c ".") root then p else head ++ root
  | None => p
  end.

(** Lines 51-52 and 133-134 of [process_excel_file]. *)
Definition pdf_path (input_file_path : string) : string :=
  let pdf_filename := splitext_root (basename input_file_path) ++ ".pdf" in
  join (dirname input_file_path) pdf_filename.

Definition output_path (output_folder input_file_path : string) : string :=
  let output_filename := splitext_root (basename input_file_path) ++ ".csv" in
  join output_folder output_filename.

(** *** The folders *)

Definition INPUT_FOLDER : string := "/path/to/input".
Definition OUTPUT_FOLDER : string := "/path/to/output".

(** An uploaded file, by what the two readers make of its bytes:
    [pd.read_excel(path, skiprows=k)] for each [k], and the text of the
    first page as [fitz] reads it. *)
Record file : Type := File {
  as_workbook : result (nat -> frame);
  as_pdf : result string
}.

(** The files of the input folder and of the output folder, by path.  The
    folders hold files only. *)
Record disk : Type := Disk {
  input_files : gmap string file;
  output_files : gmap string csv_file
}.

(** What does not depend on the upload: row 1 of the template, the master
    table, and the exception of [to_csv], if it raises. *)
Record site : Type := Site {
  template_file : result (list (option string));
  master_file : result (list (option string * option string));
  write_error : option string
}.

(** What a run on [input_file_path] reads. *)
Definition job_at (s : site) (d : disk) (input_file_path : string) : job :=
  Job match input_files d !! input_file_path with
      | Some f => as_workbook f
      | None =>
          Err ("[Errno 2] No such file or directory: '" ++ input_file_path ++ "'")
      end
      (as_pdf <$> input_files d !! pdf_path input_file_path)
      (template_file s) (master_file s) (write_error s).

(** [process_excel_file] with its effect on the output folder. *)
Definition process_excel_file_at {sorter : Sorter} (s : site) (d : disk)
    (input_file_path output_folder : string) : outcome * disk :=
  match process_excel_file (job_at s d input_file_path) with
  | Saved csv =>
      (Saved csv,
       Disk (input_files d)
            (<[output_path output_folder input_file_path := csv]> (output_files d)))
  | o => (o, d)
  end.

(** The two parts of the form, each with the name [secure_filename] made of
    the client's file name: a name without separator, that may be empty. *)
Record upload : Type := Upload {
  excel_part : option (string * file);
  pdf_part : option (string * file)
}.

(** [file.save(path)]; it raises when the path is that of the folder itself. *)
Definition save (path : string) (f : file) (files : gmap string file)
    : option (gmap string file) :=
  if ends_with_sep path then None else Some (<[path := f]> files).

(** [process_invoice] with the files it saves; no response when an
    exception leaves the function. *)
Definition process_invoice_at {sorter : Sorter} (s : site) (d : disk) (up : upload)
    : option response * disk :=
  match excel_part up, pdf_part up with
  | Some (excel_filename, excel_file), Some (pdf_filename, pdf_file) =>
      let excel_path := join INPUT_FOLDER excel_filename in
      let pdf_path := join INPUT_FOLDER pdf_filename in
      match save excel_path excel_file (input_files d) with
      | None => (None, d)
      | Some files1 =>
          match save pdf_path pdf_file files1 with
          | None => (None, Disk files1 (output_files d))
          | Some files2 =>
              let '(o, d') :=
                process_excel_file_at s (Disk files2 (output_files d))
                                      excel_path OUTPUT_FOLDER in
              (Some match o with
                    | Raised e => Response 500 (ErrorBody ("Error processing files: " ++ e))
                    | _ => Response 200 (MessageBody "Files processed successfully!")
                    end,
               d')
          end
      end
  | _, _ => (Some (Response 400 (ErrorBody "Excel and PDF files are required!")), d)
  end.

(** [download_file], for a file name of the route: the attachment, or the
    answer 404. *)
Inductive download : Type :=
  | Attachment (csv : csv_file)
  | NotFound (r : response).

Definition download_file (d : disk) (filename : string) : download :=
  let file_path := join OUTPUT_FOLDER filename in
  match output_files d !! file_path with
  | Some csv => Attachment csv
  | None => NotFound (Response 404 (ErrorBody "File not found!"))
  end.

End Server.

(** ** Vocabulary of the properties *)

Module Spec.
Import Str Sorting Frame Extractor Pipeline Server.

(** The summed net amount of group [k]; a missing amount counts as zero. *)
Definition group_net (df : list line_item) (k : string) : Q :=
  Qsum (omap inv_net_amt (group_rows k df)).

(** The sum of all group sums. *)
Definition total_net {sorter : Sorter} (df : list line_item) : Q :=
  Qsum (map (group_net df) (group_keys df)).

(** The row of [final_df] for group [k]. *)
Definition group_row {sorter : Sorter} (df : list line_item) (total_due_value : Q)
    (k : string) : alloc_row :=
  let s := Fin (group_net df k) in
  let pct := Float.div s (Fin (total_net df)) in
  AllocRow k s pct (Float.mul pct (Fin total_due_value))
           (first_material (group_rows k (sort_by_net_desc df))).

(** The allocated amounts as the row builder writes them. *)
Definition rounded_amounts (final : list alloc_row) : list fval :=
  map (fun r => round2 (allocated_amount r)) final.








(** The four resolved positions lie inside a row of [num_columns] cells
    and differ from one another. *)
Record good_indices (num_columns : nat) (ix : indices) : Prop := GoodIndices {
  material_lt : (material_index ix < num_columns)%nat;
  amount_lt : (amount_index ix < num_columns)%nat;
  upc_lt : (upc_index ix < num_columns)%nat;
  quantity_lt : (quantity_index ix < num_columns)%nat;
  material_amount : material_index ix <> amount_index ix;
  material_upc : material_index ix <> upc_index ix;
  material_quantity : material_index ix <> quantity_index ix;
  amount_upc : amount_index ix <> upc_index ix;
  amount_quantity : amount_index ix <> quantity_index ix;
  upc_quantity : upc_index ix <> quantity_index ix
}.

(** The rows of the allocation groups as they reach [pd.DataFrame], before
    the padding. *)
Definition real_rows {sorter : Sorter} (ix : indices) (num_columns : nat)
    (master : result (list (option string * option string)))
    (df : list line_item) (total_due_value : Q) : list out_row :=
  map (fill_quantity ix)
      (map_upcs ix master (build_rows ix num_columns (final_df df total_due_value))).

(** A row of the row builder: blank but for the item number and the
    amount. *)
Definition built (ix : indices) (num_columns : nat) (row : out_row) : Prop :=
  length row = num_columns /\
  (exists z, row !!! material_index ix = OStr (of_Z z)) /\
  row !!! upc_index ix = OStr "" /\
  row !!! quantity_index ix = OStr "".

(** [needle] occurs in [text]. *)
Definition occurs (needle text : string) : Prop :=
  exists before after, text = before ++ needle ++ after.

Definition no_dot (s : string) : bool :=
  all_chars (fun c => negb (Ascii.eqb c ".")) s.

(** [needle in text], by trying every position. *)
Fixpoint contains (needle text : string) : bool :=
  match strip_prefix needle text with
  | Some _ => true
  | None =>
      match text with
      | String _ text' => contains needle text'
      | EmptyString => false
      end
  end.

(** A name without path separator. *)
Definition no_sep (s : string) : bool :=
  all_chars (fun c => negb (Ascii.eqb c "/")) s.

Definition only_dots (s : string) : bool :=
  all_chars (fun c => Ascii.eqb c ".") s.

(** The job of an upload, by the names of its two files: the workbook is
    the content saved last under the name of the Excel part, and the
    companion PDF is the file of the input folder named [stem ++ ".pdf"]
    once both parts are saved. *)
Definition uploaded_job (s : site) (d : disk) (stem : string)
    (excel_filename : string) (excel_file : file)
    (pdf_filename : string) (pdf_file : file) : job :=
  let read :=
    if String.eqb pdf_filename excel_filename then pdf_file else excel_file in
  let companion :=
    if String.eqb pdf_filename (stem ++ ".pdf") then Some pdf_file
    else if String.eqb excel_filename (stem ++ ".pdf") then Some excel_file
    else input_files d !! (INPUT_FOLDER ++ "/" ++ stem ++ ".pdf") in
  Job (as_workbook read) (as_pdf <$> companion)
      (template_file s) (master_file s) (write_error s).

(** A group that the row builder does not skip. *)
Definition buildable (g : alloc_row) : bool :=
  notna (top_material g) && negb (isna (allocated_amount g)).

(** The item number and the amount the row builder writes for a group. *)
Definition built_cells (g : alloc_row) : option (out_cell * out_cell) :=
  m ← top_material g;
  if isna (allocated_amount g) then None
  else Some (OStr (of_Z (trunc m)), OFloat (round2 (allocated_amount g))).

(** The text of an integer as [str] prints it: a minus sign or none, then
    digits that start with [0] only when they are ["0"]. *)
Definition canonical_digits (s : string) : bool :=
  match s with
  | String c rest =>
      is_digit c && all_chars is_digit rest
      && (negb (Ascii.eqb c "0") || String.eqb rest EmptyString)
  | EmptyString => false
  end.

Definition canonical_int (s : string) : bool :=
  match s with
  | String c rest =>
      if Ascii.eqb c "-" then canonical_digits rest && negb (String.eqb rest "0")
      else canonical_digits s
  | EmptyString => false
  end.

(** The text-forcing pattern around a code. *)
Definition as_text (code : string) : string := "=" ++ quote ++ code ++ quote.

(** The external-code cell the mapper writes for the item text [item]. *)
Definition upc_cell (lookup : gmap string string) (item : string) : out_cell :=
  match lookup !! strip item with
  | Some code =>
      if String.eqb code "NA" then OStr "NA"
      else OStr (as_text (zfill 12 code))
  | None => OStr "NA"
  end.

(** The external-code cell of a data row at the end of the run. *)
Definition final_upc_cell (master : result (list (option string * option string)))
    (item : string) : out_cell :=
  match master with
  | Ok table => upc_cell (upc_lookup table) item
  | Err _ => OStr ""
  end.


(** The same job with another master file. *)
Definition with_master (m : result (list (option string * option string)))
    (j : job) : job :=
  Job (workbook j) (companion_pdf j) (template_row j) m (output_error j).

Definition is_saved (o : outcome) : bool :=
  match o with Saved _ => true | _ => false end.




End Spec.

(** ** Concrete inputs *)

Module Examples.
Import Str Sorting Frame Extractor Pipeline Server Spec.

Definition input_columns : list string :=
  ["L01 Material Price Group Key"; "Inv Net Amt"; "Material"].

Definition item (k : string) (amount mat : Z) : line_item :=
  LineItem (Some k) (Some (inject_Z amount)) (Some (inject_Z mat)).




(** A line without net amount, one without key, one without material. *)
Definition sparse_rows : list line_item :=
  [ LineItem (Some "B") None (Some 8%Q);
    item "A" 100 5;
    LineItem None (Some 40%Q) (Some 9%Q);
    item "B" 600 7;
    LineItem (Some "A") (Some 300%Q) None;
    item "A" 300 6 ].

(** A sheet with two title rows above the header row. *)
Definition two_groups_workbook : nat -> frame := fun skip =>
  match skip with
  | 2%nat => DataFrame input_columns [item "B" 600 7; item "A" 100 5; item "A" 300 6]
  | _ => DataFrame ["Invoice lines"; "Unnamed: 1"; "Unnamed: 2"] []
  end.



Definition page_1000 : string :=
  "Invoice 18" ++ String (ascii_of_nat 10) "Total Due USD    1,000.00".

Definition page_without_total : string := "Invoice 19, Balance 1,000.00".

Definition template_cells : list (option string) :=
  [Some "Item_Number"; Some "Description"; None; Some "Extended_Amount";
   Some "UPC_Number"; Some "Quantity"].

(** Item 6 twice, with a code of three digits; item 7 with a code of
    thirteen digits; item 5 is not there. *)
Definition master_rows : list (option string * option string) :=
  [(Some " 123 ", Some "6"); (Some "99", Some " 6"); (Some "1234567890123", Some "7")].

Definition good_job : job :=
  Job (Ok two_groups_workbook) (Some (Ok page_1000)) (Ok template_cells)
      (Ok master_rows) None.

Definition master_down_job : job :=
  with_master (Err "No such file or directory") good_job.







(** The files of an upload, and a server that has seen no upload yet. *)
Definition workbook_file : file := File (Ok two_groups_workbook) (Err "not a PDF").
Definition invoice_pdf : file := File (Err "File is not a zip file") (Ok page_1000).
Definition office : site := Site (Ok template_cells) (Ok master_rows) None.
Definition empty_disk : disk := Disk ∅ ∅.

End Examples.

Import Str Sorting Frame Extractor Pipeline Server Spec Examples.

(** * Properties *)

Local Open Scope list_scope.

(** ** Facts about the sort *)

Section InsertionSort.
Context {A : Type} (le : A -> A -> bool).

Lemma insert_sorted_perm (x : A) (l : list A) :
  insert_sorted le x l ≡ₚ x :: l.
Proof.
  induction l as [|y l IH]; simpl; [done|].
  destruct (le x y); [done|].
  rewrite IH. apply Permutation_swap.
Qed.

Lemma insertion_sort_perm (l : list A) : insertion_sort le l ≡ₚ l.
Proof.
  induction l as [|x l IH]; simpl; [done|].
  rewrite insert_sorted_perm. by rewrite IH.
Qed.



Hypothesis le_total : total le.
Hypothesis le_trans : transitive le.

Lemma insert_sorted_sorted (x : A) (l : list A) :
  sorted le l -> sorted le (insert_sorted le x l).
Proof.
  induction 1 as [|y l Hs IH Hy]; simpl.
  - repeat constructor.
  - destruct (le x y) eqn:Hxy.
    + constructor; [by constructor|].
      constructor; [done|].
      eapply Forall_impl; [exact Hy|]. intros z Hz. by eapply le_trans.
    + constructor; [done|].
      assert (Hyx : le y x = true) by (destruct (le_total x y); congruence).
      apply Forall_forall. intros z Hz. rewrite insert_sorted_perm in Hz.
      apply elem_of_cons in Hz as [->|Hz]; [done|].
      rewrite Forall_forall in Hy. by apply Hy.
Qed.

Lemma insertion_sort_sorted (l : list A) : sorted le (insertion_sort le l).
Proof.
  induction l as [|x l IH]; simpl; [constructor|].
  by apply insert_sorted_sorted.
Qed.

End InsertionSort.

#[global] Instance insertion_sorter_ok : SorterOk insertion_sorter.
Proof.
  split.
  - intros A le l. apply insertion_sort_perm.
  - intros A le l Htotal Htrans. by apply insertion_sort_sorted.
Qed.


Section SortingFacts.
Context {sorter : Sorter} {Sok : SorterOk sorter}.
Context {A : Type} (le : A -> A -> bool).

Lemma elem_of_sort (x : A) (l : list A) : x ∈ sort_with le l <-> x ∈ l.
Proof. by rewrite sort_perm. Qed.

Lemma elem_of_List_filter (p : A -> bool) (x : A) (l : list A) :
  x ∈ List.filter p l <-> x ∈ l /\ p x = true.
Proof. by rewrite !list_elem_of_In, filter_In. Qed.

Lemma List_filter_perm (p : A -> bool) (l l' : list A) :
  l ≡ₚ l' -> List.filter p l ≡ₚ List.filter p l'.
Proof.
  induction 1 as [|x l l' _ IH|x y l|l l' l'' _ IH1 _ IH2]; cbn [List.filter].
  - done.
  - destruct (p x); by rewrite IH.
  - destruct (p x), (p y); try done. apply Permutation_swap.
  - by rewrite IH1.
Qed.





End SortingFacts.

(** ** Facts about frames *)

Section FrameFacts.
Context {sorter : Sorter} {Sok : SorterOk sorter}.






Lemma key_is_spec (k : string) (r : line_item) :
  key_is k r = true <-> price_group_key r = Some k.
Proof. unfold key_is. by rewrite bool_decide_eq_true. Qed.

Lemma elem_of_group_keys (k : string) (l : list line_item) :
  k ∈ group_keys l <-> exists r, r ∈ l /\ price_group_key r = Some k.
Proof.
  unfold group_keys.
  rewrite elem_of_sort, elem_of_remove_dups, list_elem_of_omap.
  done.
Qed.

Lemma NoDup_group_keys (l : list line_item) : NoDup (group_keys l).
Proof.
  unfold group_keys. rewrite sort_perm. apply NoDup_remove_dups.
Qed.

Lemma group_keys_perm (l l' : list line_item) (k : string) :
  l ≡ₚ l' -> k ∈ group_keys l <-> k ∈ group_keys l'.
Proof.
  intros Hp. rewrite !elem_of_group_keys.
  split; intros (r & Hr & Hk); exists r; split; try done.
  - by rewrite <- Hp.
  - by rewrite Hp.
Qed.

Lemma filter_dropna_key (p : line_item -> bool) (l : list line_item) :
  (forall r, p r = true -> price_group_key r <> None) ->
  List.filter p (dropna_key l) = List.filter p l.
Proof.
  intros Hp. unfold dropna_key. induction l as [|r l IH]; [done|].
  cbn [List.filter]. destruct (price_group_key r) as [k'|] eqn:Hk;
    cbn [notna List.filter].
  - by rewrite IH.
  - destruct (p r) eqn:Hr; [|done]. apply Hp in Hr. congruence.
Qed.

(** The key sort and the removal of rows without a key leave the rows
    of a group as they were, up to their order. *)
Lemma filter_sort_by_key_perm (p : line_item -> bool) (l : list line_item) :
  (forall r, p r = true -> price_group_key r <> None) ->
  List.filter p (sort_by_key (dropna_key l)) ≡ₚ List.filter p l.
Proof.
  intros Hp. unfold sort_by_key.
  rewrite (List_filter_perm p _ _ (sort_perm _ _ _)).
  by rewrite filter_dropna_key.
Qed.


Lemma key_is_present (k : string) (r : line_item) :
  key_is k r = true -> price_group_key r <> None.
Proof. intros Hr%key_is_spec. congruence. Qed.

Lemma group_rows_sort_by_key (k : string) (l : list line_item) :
  group_rows k (sort_by_key (dropna_key l)) ≡ₚ group_rows k l.
Proof. apply filter_sort_by_key_perm. intros r. apply key_is_present. Qed.

Lemma group_keys_sort_by_key (k : string) (l : list line_item) :
  k ∈ group_keys (sort_by_key (dropna_key l)) <-> k ∈ group_keys l.
Proof.
  rewrite !elem_of_group_keys. unfold sort_by_key, dropna_key.
  split.
  - intros (r & Hr & Hk). exists r. split; [|done].
    rewrite elem_of_sort, elem_of_List_filter in Hr. tauto.
  - intros (r & Hr & Hk). exists r. split; [|done].
    rewrite elem_of_sort, elem_of_List_filter. split; [done|].
    by rewrite Hk.
Qed.

(** The inner join with a table that has every key once. *)
Lemma filter_key_singleton {B : Type} (g : string -> B) (ks : list string) (k : string) :
  NoDup ks -> k ∈ ks ->
  List.filter (fun '(k', _) => String.eqb k' k) (map (fun k => (k, g k)) ks)
  = [(k, g k)].
Proof.
  induction 1 as [|k0 ks Hk0 Hnd IH]; intros Hin.
  - by apply elem_of_nil in Hin.
  - cbn [map List.filter]. destruct (String.eqb_spec k0 k) as [->|Hne].
    + f_equal. clear IH Hin. induction ks as [|k1 ks IH]; [done|].
      cbn [map List.filter]. destruct (String.eqb_spec k1 k) as [->|_].
      * destruct Hk0. left.
      * apply IH.
        -- intros Hin. apply Hk0. by right.
        -- by apply NoDup_cons in Hnd as [_ ?].
    + apply elem_of_cons in Hin as [->|Hin]; [done|]. by apply IH.
Qed.

Lemma merge_total {A B C : Type} (f : string -> A -> B -> C)
    (a : string -> A) (b : string -> B) (ks ks' : list string) :
  NoDup ks' -> (forall k, k ∈ ks -> k ∈ ks') ->
  merge f (map (fun k => (k, a k)) ks) (map (fun k => (k, b k)) ks')
  = map (fun k => f k (a k) (b k)) ks.
Proof.
  intros Hnd Hsub. unfold merge. induction ks as [|k ks IH]; [done|].
  cbn [map flat_map]. rewrite IH by (intros; apply Hsub; by right).
  rewrite filter_key_singleton by (try done; apply Hsub; left). done.
Qed.

End FrameFacts.

(** ** Facts about floats and rounding *)

Section FloatFacts.

Lemma sum_Fin (qs : list Q) : Float.sum (map Fin qs) = Fin (Qsum qs).
Proof.
  induction qs as [|q qs IH]; [done|].
  unfold Float.sum in *. cbn [map foldr]. by rewrite IH.
Qed.

Lemma series_sum_Fin (qs : list Q) : series_sum (map Fin qs) = Fin (Qsum qs).
Proof.
  unfold series_sum. rewrite <- sum_Fin. f_equal.
  induction qs as [|q qs IH]; [done|]. cbn [map List.filter isna negb].
  by rewrite IH.
Qed.






End FloatFacts.

(** ** Facts about the extractor *)

Section ExtractorFacts.

Local Open Scope string_scope.











End ExtractorFacts.

(** ** The shape of [final_df] *)

Section AllocatorFacts.
Context {sorter : Sorter} {Sok : SorterOk sorter}.

Lemma grouped_eq (df : list line_item) :
  grouped df = map (fun k => (k, Fin (group_net df k))) (group_keys df).
Proof. done. Qed.

Lemma total_net_eq (df : list line_item) :
  series_sum (map snd (grouped df)) = Fin (total_net df).
Proof.
  rewrite grouped_eq, map_map. cbn [snd].
  rewrite <- (map_map (group_net df) Fin). apply series_sum_Fin.
Qed.

(** The join keeps one row for each group, in the order of the keys. *)
Lemma final_df_spec (df : list line_item) (total_due_value : Q) :
  final_df df total_due_value
  = map (group_row df total_due_value) (group_keys df).
Proof.
  unfold final_df, with_amounts, top_materials.
  rewrite total_net_eq, grouped_eq, map_map.
  rewrite (merge_total _
    (fun k => (Fin (group_net df k),
               Float.div (Fin (group_net df k)) (Fin (total_net df)),
               Float.mul (Float.div (Fin (group_net df k)) (Fin (total_net df)))
                         (Fin total_due_value)))
    (fun k => first_material (group_rows k (sort_by_net_desc df)))).
  - done.
  - apply NoDup_group_keys.
  - intros k Hk. eapply group_keys_perm; [|exact Hk].
    apply sort_perm.
Qed.

End AllocatorFacts.

(** ** Allocation *)

Section Allocation.
Context {sorter : Sorter} {Sok : SorterOk sorter}.



Lemma Qsum_omap_default (g : list line_item) :
  (Qsum (omap inv_net_amt g)
   == Qsum (map (fun r => default 0%Q (inv_net_amt r)) g))%Q.
Proof.
  unfold Qsum. induction g as [|r g IH]; [done|].
  simpl. destruct (inv_net_amt r) as [a|]; simpl;
    change (list_omap line_item Q inv_net_amt g) with (omap inv_net_amt g);
    lra.
Qed.

Lemma Qsum_perm (l l' : list Q) : l ≡ₚ l' -> (Qsum l == Qsum l')%Q.
Proof.
  unfold Qsum.
  induction 1 as [|x l l' _ IH|x y l|l l' l'' _ IH1 _ IH2]; simpl; lra.
Qed.

End Allocation.







(** C10.  Only the rows without price-group key are dropped before
    grouping.  A row without net amount stays in its group; the group is
    in [final_df] and its summed net amount is the finite sum of the net
    amounts of its rows, a missing one counting as zero. *)
Theorem missing_net_amount_counts_as_zero
    {sorter : Sorter} {Sok : SorterOk sorter}
    (rows : list line_item) (total_due_value : Q) :
  let df := sort_by_key (dropna_key rows) in
  (forall r, r ∈ dropna_key rows <-> r ∈ rows /\ price_group_key r <> None) /\
  (forall k, group_rows k df ≡ₚ group_rows k rows) /\
  (forall r k,
     r ∈ rows -> price_group_key r = Some k ->
     r ∈ group_rows k df /\
     exists g s,
       g ∈ final_df df total_due_value /\ group_key g = k /\
       net_sum g = Fin s /\
       (s == Qsum (map (fun x => default 0%Q (inv_net_amt x)) (group_rows k rows)))%Q).
Proof.
  intros df. split.
  { intros r. unfold dropna_key. rewrite elem_of_List_filter.
    destruct (price_group_key r); cbn; intuition congruence. }
  split; [intros k; apply group_rows_sort_by_key|].
  intros r k Hr Hk. split.
  - unfold df. rewrite group_rows_sort_by_key.
    apply elem_of_List_filter. split; [done|]. by apply key_is_spec.
  - exists (group_row df total_due_value k), (group_net df k).
    split; [|split; [done|split; [done|]]].
    + rewrite final_df_spec. apply list_elem_of_fmap. exists k. split; [done|].
      unfold df. apply group_keys_sort_by_key, elem_of_group_keys. eauto.
    + unfold group_net, df. rewrite Qsum_omap_default.
      apply Qsum_perm, fmap_Permutation, group_rows_sort_by_key.
Qed.

(** The group "B" of [sparse_rows]: a line without net amount and a line
    of 600. *)
Lemma missing_net_amount_counts_as_zero_witness :
  exists g s,
    g ∈ final_df (sort_by_key (dropna_key sparse_rows)) 1000 /\ group_key g = "B" /\
    net_sum g = Fin s /\ (s == 0 + (600 + 0))%Q.
Proof.
  pose proof (missing_net_amount_counts_as_zero (sorter := insertion_sorter) sparse_rows 1000)
    as (_ & _ & H).
  destruct (H (LineItem (Some "B") None (Some 8%Q)) "B") as (_ & g & s & Hg & Hk & Hs & Heq).
  - apply list_elem_of_In. simpl. tauto.
  - reflexivity.
  - exists g, s. repeat split; try done.
Defined.

(** ** Representative material *)

Section RepresentativeMaterial.
Context {sorter : Sorter} {Sok : SorterOk sorter}.









End RepresentativeMaterial.




(** ** Template positions and output rows *)

Section RowFacts.
Context {sorter : Sorter}.

Lemma index_lookup (name : string) (headers : list string) (i : nat) :
  index name headers = Some i -> headers !! i = Some name.
Proof.
  revert i. induction headers as [|h rest IH]; intros i; [done|].
  cbn [index]. destruct (String.eqb_spec h name) as [->|Hne].
  - by intros [= <-].
  - destruct (index name rest) as [i'|]; [|done].
    intros [= <-]. cbn. by apply IH.
Qed.

Lemma index_distinct (n1 n2 : string) (headers : list string) (i j : nat) :
  n1 <> n2 -> index n1 headers = Some i -> index n2 headers = Some j -> i <> j.
Proof.
  intros Hne H1%index_lookup H2%index_lookup ->. congruence.
Qed.

Lemma resolve_indices_good (headers : list string) (ix : indices) :
  resolve_indices headers = Some ix -> good_indices (length headers) ix.
Proof.
  unfold resolve_indices.
  destruct (index "Item_Number" headers) as [mi|] eqn:Hm; [|done].
  destruct (index "Extended_Amount" headers) as [ai|] eqn:Ha; [|done].
  destruct (index "UPC_Number" headers) as [ui|] eqn:Hu; [|done].
  destruct (index "Quantity" headers) as [qi|] eqn:Hq; [|done].
  cbn. intros [= <-].
  constructor; cbn;
    try (eapply lookup_lt_Some, index_lookup; eassumption);
    (eapply index_distinct; [|eassumption..]; done).
Qed.

Lemma resolve_indices_None (headers : list string) :
  resolve_indices headers = None <->
  index "Item_Number" headers = None \/ index "Extended_Amount" headers = None \/
  index "UPC_Number" headers = None \/ index "Quantity" headers = None.
Proof.
  unfold resolve_indices.
  destruct (index "Item_Number" headers), (index "Extended_Amount" headers),
    (index "UPC_Number" headers), (index "Quantity" headers); cbn;
    intuition congruence.
Qed.

(** [str(int(m))] is never empty and never ["NA"]. *)
Lemma of_Z_populated (z : Z) : populated (OStr (of_Z z)) = true.
Proof.
  unfold of_Z.
  destruct z as [|p|p]; cbn; [done|..]; by destruct (Pos.to_uint p).
Qed.

Lemma pad_loop_spec (fuel num_columns : nat) (data_rows : list out_row) :
  (100 - length data_rows <= fuel)%nat ->
  pad_loop fuel num_columns data_rows
  = data_rows ++ replicate (100 - length data_rows) (blank_row num_columns).
Proof.
  revert data_rows. induction fuel as [|fuel IH]; intros data_rows Hfuel.
  - cbn. replace (100 - length data_rows)%nat with O by lia.
    by rewrite app_nil_r.
  - cbn [pad_loop]. destruct (Nat.ltb_spec (length data_rows) 100) as [Hlt|Hge].
    + rewrite IH by (rewrite length_app; cbn; lia).
      rewrite length_app. cbn [length].
      replace (100 - length data_rows)%nat
        with (S (100 - (length data_rows + 1)))%nat by lia.
      cbn [replicate]. by rewrite <- app_assoc.
    + replace (100 - length data_rows)%nat with O by lia.
      by rewrite app_nil_r.
Qed.

(** The loop stops, and leaves the rows followed by the blank rows that
    were missing to reach 100. *)
Lemma pad_rows_spec (num_columns : nat) (data_rows : list out_row) :
  pad_rows num_columns data_rows
  = data_rows ++ replicate (100 - length data_rows) (blank_row num_columns).
Proof. apply pad_loop_spec. lia. Qed.

Lemma output_rows_spec (ix : indices) (num_columns : nat)
    (master : result (list (option string * option string)))
    (df : list line_item) (T : Q) :
  output_rows ix num_columns master df T
  = real_rows ix num_columns master df T
    ++ replicate (100 - length (real_rows ix num_columns master df T))
                 (blank_row num_columns).
Proof. unfold output_rows. apply pad_rows_spec. Qed.

Context (ix : indices) (num_columns : nat).
Hypothesis Hgood : good_indices num_columns ix.

Lemma build_row_built (r : alloc_row) (row : out_row) :
  build_row ix num_columns r = Some row -> built ix num_columns row.
Proof.
  destruct Hgood. unfold build_row.
  destruct (top_material r) as [m|]; [|done].
  destruct (isna (allocated_amount r)); [done|]. cbv zeta. intros [= <-].
  unfold built, blank_row.
  rewrite !length_insert, length_replicate. split; [done|].
  split; [|split].
  - exists (trunc m). rewrite list_lookup_total_insert_ne by done.
    by rewrite list_lookup_total_insert_eq by (by rewrite length_replicate).
  - rewrite !list_lookup_total_insert_ne by done.
    by apply lookup_total_replicate_2.
  - rewrite !list_lookup_total_insert_ne by done.
    by apply lookup_total_replicate_2.
Qed.

Lemma build_rows_built (final : list alloc_row) (row : out_row) :
  row ∈ build_rows ix num_columns final -> built ix num_columns row.
Proof.
  unfold build_rows. rewrite list_elem_of_omap.
  intros (r & _ & Hr). by eapply build_row_built.
Qed.

Lemma blank_row_lookup (i : nat) :
  (i < num_columns)%nat -> blank_row num_columns !!! i = OStr "".
Proof. intros. unfold blank_row. by apply lookup_total_replicate_2. Qed.

End RowFacts.

(** ** The rows of a run *)

Section RunFacts.
Context {sorter : Sorter}.
Context (ix : indices) (num_columns : nat).
Hypothesis Hgood : good_indices num_columns ix.

Lemma map_upc_built (lookup : gmap string string) (row : out_row) (z : Z) :
  length row = num_columns ->
  row !!! material_index ix = OStr (of_Z z) ->
  length (map_upc ix lookup row) = num_columns /\
  map_upc ix lookup row !!! material_index ix = OStr (of_Z z) /\
  map_upc ix lookup row !!! quantity_index ix = row !!! quantity_index ix /\
  map_upc ix lookup row !!! amount_index ix = row !!! amount_index ix /\
  map_upc ix lookup row !!! upc_index ix = upc_cell lookup (of_Z z).
Proof.
  destruct Hgood. intros Hlen Hm. unfold map_upc, upc_cell. rewrite Hm.
  cbv zeta.
  destruct (lookup !! strip (of_Z z)) as [code|]; unfold default; cbn [from_option id].
  - destruct (String.eqb code "NA"); cbn [negb];
      rewrite length_insert, !list_lookup_total_insert_ne by done;
      rewrite list_lookup_total_insert_eq by (by rewrite Hlen); done.
  - change (String.eqb "NA" "NA") with true. cbn [negb].
    rewrite length_insert, !list_lookup_total_insert_ne by done.
    rewrite list_lookup_total_insert_eq by (by rewrite Hlen). done.
Qed.

Lemma fill_quantity_spec (row : out_row) :
  length row = num_columns ->
  length (fill_quantity ix row) = num_columns /\
  fill_quantity ix row !!! material_index ix = row !!! material_index ix /\
  fill_quantity ix row !!! upc_index ix = row !!! upc_index ix /\
  fill_quantity ix row !!! amount_index ix = row !!! amount_index ix /\
  fill_quantity ix row !!! quantity_index ix
  = if populated (row !!! material_index ix) then OInt 1 else OStr "".
Proof.
  destruct Hgood. intros Hlen. unfold fill_quantity.
  destruct (populated (row !!! material_index ix));
    rewrite length_insert, !list_lookup_total_insert_ne by done;
    rewrite list_lookup_total_insert_eq by (by rewrite Hlen); done.
Qed.

(** A data row at the end of the run: the item number, the quantity 1
    and the external code the mapper found, or none when the master
    file could not be read. *)
Lemma real_row_spec (master : result (list (option string * option string)))
    (df : list line_item) (T : Q) (row : out_row) :
  row ∈ real_rows ix num_columns master df T ->
  length row = num_columns /\
  exists z,
    row !!! material_index ix = OStr (of_Z z) /\
    row !!! quantity_index ix = OInt 1 /\
    row !!! upc_index ix = final_upc_cell master (of_Z z).
Proof.
  unfold real_rows. rewrite list_elem_of_fmap. intros (row1 & -> & Hrow1).
  assert (Hmid : length row1 = num_columns /\
                 exists z, row1 !!! material_index ix = OStr (of_Z z) /\
                           row1 !!! upc_index ix = final_upc_cell master (of_Z z)).
  { destruct master as [table|e]; cbn [map_upcs final_upc_cell] in *.
    - apply list_elem_of_fmap in Hrow1 as (row0 & -> & Hrow0).
      apply (build_rows_built ix num_columns Hgood) in Hrow0
        as (Hlen & (z & Hz) & _ & _).
      destruct (map_upc_built (upc_lookup table) row0 z Hlen Hz)
        as (? & ? & _ & _ & ?). eauto.
    - apply (build_rows_built ix num_columns Hgood) in Hrow1
        as (Hlen & (z & Hz) & Hu & _). eauto. }
  destruct Hmid as (Hlen & z & Hz & Hu).
  destruct (fill_quantity_spec row1 Hlen) as (Hlen' & Hm' & Hu' & _ & Hq').
  split; [done|]. exists z.
  rewrite Hm', Hu', Hq', Hz, of_Z_populated. done.
Qed.

(** The amount cells of the data rows are the rounded allocated amounts,
    in the order of the groups, when every group has a material and an
    amount. *)
Lemma build_rows_amounts (final : list alloc_row) :
  Forall (fun r => top_material r <> None /\ isna (allocated_amount r) = false) final ->
  map (fun row => row !!! amount_index ix) (build_rows ix num_columns final)
  = map OFloat (rounded_amounts final).
Proof.
  destruct Hgood. unfold build_rows, rounded_amounts.
  induction 1 as [|r final [Hm Ha] _ IH]; [done|].
  cbn [omap list_omap map]. unfold build_row at 1.
  destruct (top_material r) as [m|]; [|done]. rewrite Ha. cbv zeta.
  cbn [map]. f_equal; [|exact IH].
  apply list_lookup_total_insert_eq. unfold blank_row.
  by rewrite length_insert, length_replicate.
Qed.

Lemma later_steps_keep_amounts
    (master : result (list (option string * option string))) (rows : list out_row) :
  Forall (built ix num_columns) rows ->
  map (fun row => row !!! amount_index ix)
      (map (fill_quantity ix) (map_upcs ix master rows))
  = map (fun row => row !!! amount_index ix) rows.
Proof.
  induction 1 as [|row rows (Hlen & (z & Hz) & _ & _) _ IH]; [by destruct master|].
  destruct master as [table|e]; cbn [map_upcs map] in *.
  - destruct (map_upc_built (upc_lookup table) row z Hlen Hz)
      as (Hlen' & _ & _ & Ha & _).
    destruct (fill_quantity_spec _ Hlen') as (_ & _ & _ & Ha' & _).
    rewrite Ha', Ha. by f_equal.
  - destruct (fill_quantity_spec _ Hlen) as (_ & _ & _ & Ha' & _).
    rewrite Ha'. by f_equal.
Qed.

Lemma real_rows_amounts (master : result (list (option string * option string)))
    (df : list line_item) (T : Q) :
  Forall (fun r => top_material r <> None /\ isna (allocated_amount r) = false)
         (final_df df T) ->
  map (fun row => row !!! amount_index ix) (real_rows ix num_columns master df T)
  = map OFloat (rounded_amounts (final_df df T)).
Proof.
  intros Hall. unfold real_rows. rewrite later_steps_keep_amounts.
  - by apply build_rows_amounts.
  - apply Forall_forall. intros row. by apply build_rows_built.
Qed.

End RunFacts.

Section Runs.
Context {sorter : Sorter}.

(** What a run that saves a CSV has gone through. *)
Lemma saved_inv (j : job) (csv : csv_file) :
  process_excel_file j = Saved csv ->
  exists read skip found page T cells ix,
    workbook j = Ok read /\
    locate_header read = Some (skip, found) /\
    companion_pdf j = Some page /\
    extract_invoice_amount page = Ok T /\
    template_row j = Ok cells /\
    resolve_indices (template_headers cells) = Some ix /\
    output_error j = None /\
    csv = Csv (template_headers cells)
              (output_rows ix (length (template_headers cells)) (master_table j)
                           (sort_by_key (dropna_key (rows found))) T).
Proof.
  unfold process_excel_file.
  destruct (workbook j) as [read|] eqn:Hwb; [|done].
  destruct (locate_header read) as [[skip found]|] eqn:Hloc; [|done].
  destruct (companion_pdf j) as [page|] eqn:Hpdf; [|done].
  destruct (extract_invoice_amount page) as [T|] eqn:Hamt; [|done].
  destruct (template_row j) as [cells|] eqn:Htpl; [|done].
  destruct (resolve_indices (template_headers cells)) as [ix|] eqn:Hix; [|done].
  destruct (output_error j) eqn:Hout; [done|].
  intros [= <-]. exists read, skip, found, page, T, cells, ix.
  repeat split; done.
Qed.




End Runs.

(** ** Header Locator *)




(** ** Finalizer *)

(** C8.  A saved CSV has 100 rows at least.  Its rows are the rows of the
    allocation groups, each of the width of the template and with an item
    number, followed by the rows that were appended, each of the width of
    the template and with the empty string in every cell. *)
Theorem output_padded_to_100_rows {sorter : Sorter} (j : job) (csv : csv_file) :
  process_excel_file j = Saved csv ->
  (100 <= length (csv_rows csv))%nat /\
  exists ix real,
    let padding := replicate (100 - length real) (blank_row (length (csv_headers csv))) in
    resolve_indices (csv_headers csv) = Some ix /\
    csv_rows csv = real ++ padding /\
    Forall (fun row => length row = length (csv_headers csv) /\
                       populated (row !!! material_index ix) = true) real /\
    Forall (fun row => length row = length (csv_headers csv) /\
                       Forall (fun c => c = OStr "") row) padding.
Proof.
  intros (read & skip & found & page & T & cells & ix & _ & _ & _ & _ & _
          & Hix & _ & ->)%saved_inv.
  cbn [csv_rows csv_headers]. rewrite output_rows_spec.
  set (n := length (template_headers cells)).
  set (real := real_rows ix n (master_table j) (sort_by_key (dropna_key (rows found))) T).
  split.
  - rewrite length_app, length_replicate. lia.
  - exists ix, real. cbv zeta. split; [done|]. split; [done|]. split.
    + apply Forall_forall. intros row Hrow.
      apply (real_row_spec ix n (resolve_indices_good _ _ Hix)) in Hrow
        as (Hlen & z & Hz & _). split; [done|].
      rewrite Hz. apply of_Z_populated.
    + apply Forall_forall. intros row ->%elem_of_replicate_inv.
      unfold blank_row. rewrite length_replicate. split; [done|].
      apply Forall_forall. by intros c ->%elem_of_replicate_inv.
Qed.

Lemma output_padded_to_100_rows_witness :
  exists csv, process_excel_file good_job = Saved csv /\
              (100 <= length (csv_rows csv))%nat.
Proof.
  eexists. split; [reflexivity|].
  eapply (output_padded_to_100_rows good_job). reflexivity.
Defined.

(** C9.  In every row of a saved CSV the quantity cell is the integer 1 if
    and only if the item-number cell is populated (not None, not the empty
    string, not "NA"), and it is the empty string otherwise. *)
Theorem quantity_iff_item_populated {sorter : Sorter} (j : job) (csv : csv_file) :
  process_excel_file j = Saved csv ->
  exists ix,
    resolve_indices (csv_headers csv) = Some ix /\
    forall row, row ∈ csv_rows csv ->
      (row !!! quantity_index ix = OInt 1 <->
       populated (row !!! material_index ix) = true) /\
      (populated (row !!! material_index ix) = false ->
       row !!! quantity_index ix = OStr "").
Proof.
  intros (read & skip & found & page & T & cells & ix & _ & _ & _ & _ & _
          & Hix & _ & ->)%saved_inv.
  cbn [csv_rows csv_headers]. exists ix. split; [done|].
  pose proof (resolve_indices_good _ _ Hix) as Hgood.
  intros row. rewrite output_rows_spec, elem_of_app. intros [Hrow|Hrow].
  - apply (real_row_spec ix _ Hgood) in Hrow as (_ & z & Hz & Hq & _).
    rewrite Hz, Hq, of_Z_populated. done.
  - apply elem_of_replicate_inv in Hrow as ->. destruct Hgood.
    rewrite !blank_row_lookup by done. cbn. split; [split|]; done.
Qed.

Lemma quantity_iff_item_populated_witness :
  exists csv ix,
    process_excel_file good_job = Saved csv /\
    resolve_indices (csv_headers csv) = Some ix /\
    forall row, row ∈ csv_rows csv ->
      (row !!! quantity_index ix = OInt 1 <->
       populated (row !!! material_index ix) = true) /\
      (populated (row !!! material_index ix) = false ->
       row !!! quantity_index ix = OStr "").
Proof.
  destruct (quantity_iff_item_populated good_job _ eq_refl) as (ix & Hix & H).
  by eexists _, ix.
Defined.

(** ** Facts about the master lookup *)

Section LookupFacts.








End LookupFacts.

(** ** Failures and the upload operation *)

Section Failures.
Context {sorter : Sorter}.


(** A master file that cannot be read changes no other step of the run. *)
Lemma with_master_outcome (j : job)
    (m : result (list (option string * option string))) :
  is_saved (process_excel_file (with_master m j)) = is_saved (process_excel_file j)
  /\ (is_saved (process_excel_file j) = false ->
      process_excel_file (with_master m j) = process_excel_file j).
Proof.
  unfold process_excel_file, with_master.
  cbn [workbook companion_pdf template_row master_table output_error].
  destruct (workbook j) as [read|]; [|by split].
  destruct (locate_header read) as [[skip found]|]; [|by split].
  destruct (companion_pdf j) as [page|]; [|by split].
  destruct (extract_invoice_amount page) as [T|]; [|by split].
  destruct (template_row j) as [cells|]; [|by split].
  destruct (resolve_indices (template_headers cells)) as [ix|]; [|by split].
  by destruct (output_error j).
Qed.




End Failures.




(** ** Identifier Mapper *)

(** C5, as the code has it.  When the master file cannot be read the run
    goes on as it would with a readable one: it saves the CSV whenever the
    run with any other master file does, and ends as that run ends
    otherwise.  In the saved CSV the external-code cell of every row is
    the empty string the row builder put there. *)
Theorem master_failure_leaves_codes_blank {sorter : Sorter} (j : job) (e : string) :
  master_table j = Err e ->
  (forall m, is_saved (process_excel_file (with_master m j))
             = is_saved (process_excel_file j)) /\
  (forall csv,
     process_excel_file j = Saved csv ->
     exists ix,
       resolve_indices (csv_headers csv) = Some ix /\
       forall row, row ∈ csv_rows csv -> row !!! upc_index ix = OStr "").
Proof.
  intros Hm. split; [intros m; apply with_master_outcome|].
  intros csv (read & skip & found & page & T & cells & ix & _ & _ & _ & _ & _
              & Hix & _ & ->)%saved_inv.
  cbn [csv_rows csv_headers]. exists ix. split; [done|].
  pose proof (resolve_indices_good _ _ Hix) as Hgood.
  intros row. rewrite output_rows_spec, elem_of_app. intros [Hrow|Hrow].
  - apply (real_row_spec ix _ Hgood) in Hrow as (_ & z & _ & _ & Hu).
    by rewrite Hu, Hm.
  - apply elem_of_replicate_inv in Hrow as ->. destruct Hgood.
    by apply blank_row_lookup.
Qed.

Lemma master_failure_leaves_codes_blank_witness :
  is_saved (process_excel_file good_job) = is_saved (process_excel_file master_down_job) /\
  exists csv ix,
    process_excel_file master_down_job = Saved csv /\
    resolve_indices (csv_headers csv) = Some ix /\
    forall row, row ∈ csv_rows csv -> row !!! upc_index ix = OStr "".
Proof.
  destruct (master_failure_leaves_codes_blank master_down_job
              "No such file or directory" eq_refl) as [Hsame Hblank].
  split; [exact (Hsame (Ok master_rows))|].
  destruct (Hblank _ eq_refl) as (ix & Hix & Hrows). by eexists _, ix.
Defined.

(** C5 fails as stated: with an unreadable master file the two data rows
    of the saved CSV have the empty string, not "NA", in the external-code
    cell (column 4 of the template). *)
Lemma master_failure_codes_are_not_NA :
  master_table master_down_job = Err "No such file or directory" /\
  exists csv,
    process_excel_file master_down_job = Saved csv /\
    index "UPC_Number" (csv_headers csv) = Some 3%nat /\
    map (fun row => row !!! 3%nat) (take 2 (csv_rows csv)) = [OStr ""; OStr ""] /\
    OStr "" <> OStr "NA".
Proof. split; [done|]. eexists. split; [reflexivity|]. by vm_compute. Qed.




(** * Further properties of [main1.py] *)

(** ** The extension test: [allowed_file] *)

Section ServerFacts.
Local Open Scope string_scope.

Lemma after_last_dot_None (s : string) :
  after_last_dot s = None <-> no_dot s = true.
Proof.
  unfold no_dot. induction s as [|c s IH]; simpl; [done|].
  destruct (after_last_dot s) as [e|].
  - split; [done|]. intros [_ H]%andb_prop. apply IH in H. discriminate.
  - destruct (Ascii.eqb c "."); simpl; [done|]. tauto.
Qed.

Lemma after_last_dot_app (stem ext : string) :
  no_dot ext = true -> after_last_dot (stem ++ String "." ext) = Some ext.
Proof.
  intros Hnd. induction stem as [|c stem IH]; simpl.
  - apply after_last_dot_None in Hnd. by rewrite Hnd.
  - by rewrite IH.
Qed.

Lemma after_last_dot_Some (s ext : string) :
  after_last_dot s = Some ext ->
  exists stem, s = stem ++ String "." ext /\ no_dot ext = true.
Proof.
  induction s as [|c s IH]; simpl; [done|].
  destruct (after_last_dot s) as [e|] eqn:He.
  - intros [= <-]. destruct (IH eq_refl) as (stem & -> & Hnd).
    by exists (String c stem).
  - destruct (Ascii.eqb_spec c ".") as [->|Hc]; [|done].
    intros [= <-]. exists EmptyString. split; [done|].
    by apply after_last_dot_None.
Qed.


(** X1.  [allowed_file] accepts a file name exactly when the text after its
    last point, in lower case, is "xlsx" or "pdf"; a name without a point
    is refused. *)
Theorem allowed_file_iff (filename : string) :
  allowed_file filename = true <->
  exists stem ext,
    filename = stem ++ String "." ext /\ no_dot ext = true /\
    (lower ext = "xlsx" \/ lower ext = "pdf").
Proof.
  unfold allowed_file. split.
  - destruct (after_last_dot filename) as [ext|] eqn:He; [|done].
    apply after_last_dot_Some in He as (stem & -> & Hnd).
    cbn [existsb ALLOWED_EXTENSIONS]. rewrite orb_false_r.
    intros [H|H]%orb_prop; apply String.eqb_eq in H; exists stem, ext; auto.
  - intros (stem & ext & -> & Hnd & Hext).
    rewrite after_last_dot_app by done. cbn [existsb ALLOWED_EXTENSIONS].
    destruct Hext as [-> | ->]; reflexivity.
Qed.

End ServerFacts.

(** ** The amount of the total line: [extract_invoice_amount] *)

Section MoreExtractorFacts.
Local Open Scope string_scope.


Lemma strip_prefix_app (p r : string) : strip_prefix p (p ++ r) = Some r.
Proof.
  induction p as [|c p IH]; simpl; [by destruct r|].
  by rewrite Ascii.eqb_refl.
Qed.

Lemma strip_prefix_Some (p s r : string) :
  strip_prefix p s = Some r -> s = p ++ r.
Proof.
  revert s. induction p as [|c p IH]; intros s; simpl.
  - by intros [= ->].
  - destruct s as [|d s]; [done|].
    destruct (Ascii.eqb_spec c d) as [->|]; [|done].
    intros H%IH. by subst.
Qed.


Lemma match_here_label (s g : string) :
  match_here s = Some g -> exists r, s = "Total Due USD" ++ r.
Proof.
  unfold match_here.
  destruct (strip_prefix "Total Due USD" s) as [r|] eqn:Hp; [|done].
  intros _. exists r. by apply strip_prefix_Some.
Qed.

Lemma search_occurs (s g : string) :
  search s = Some g -> occurs "Total Due USD" s.
Proof.
  induction s as [|c s IH]; cbn [search].
  - destruct (match_here EmptyString) eqn:E; [|done].
    apply match_here_label in E as [r Hr]. discriminate.
  - destruct (match_here (String c s)) eqn:E.
    + intros _. apply match_here_label in E as [r Hr].
      exists EmptyString, r. by rewrite Hr.
    + intros (before & after & ->)%IH. by exists (String c before), after.
Qed.






Lemma contains_here (needle text : string) :
  contains needle text
  = match strip_prefix needle text with
    | Some _ => true
    | None =>
        match text with
        | String _ text' => contains needle text'
        | EmptyString => false
        end
    end.
Proof. by destruct text. Qed.

Lemma occurs_contains (needle text : string) :
  occurs needle text -> contains needle text = true.
Proof.
  intros (before & after & ->). induction before as [|c before IH].
  - change (EmptyString ++ needle ++ after) with (needle ++ after).
    by rewrite contains_here, strip_prefix_app.
  - change (String c before ++ needle ++ after)
      with (String c (before ++ needle ++ after)).
    rewrite contains_here, IH.
    by destruct (strip_prefix needle (String c (before ++ needle ++ after))).
Qed.






(** X3.  A page on which the text "Total Due USD" does not occur gives no
    amount: the extraction raises, with the start of the page in its
    message. *)
Theorem extract_needs_label (text : string) :
  ~ occurs "Total Due USD" text ->
  extract_invoice_amount (Ok text) = Err (not_found_text text).
Proof.
  intros Hno. unfold extract_invoice_amount.
  destruct (search text) as [g|] eqn:Hs; [|done].
  apply search_occurs in Hs. contradiction.
Qed.

Lemma extract_needs_label_witness :
  extract_invoice_amount (Ok page_without_total)
  = Err (not_found_text page_without_total).
Proof.
  apply (extract_needs_label page_without_total).
  intros H%occurs_contains. by vm_compute in H.
Defined.





End MoreExtractorFacts.

(** ** The allocation table *)

Section KeyOrder.

Lemma string_leb_total : total String.leb.
Proof. intros a b. apply String.leb_total. Qed.

Lemma string_leb_trans : transitive String.leb.
Proof.
  intros a b c. unfold String.leb.
  destruct (String.compare a b) eqn:Hab; [|..|done];
    destruct (String.compare b c) eqn:Hbc; try done; intros _ _.
  - apply String.compare_eq_iff in Hab as ->. by rewrite Hbc.
  - apply String.compare_eq_iff in Hab as ->. by rewrite Hbc.
  - apply String.compare_eq_iff in Hbc as <-. by rewrite Hab.
  - assert (H : String.compare a c = Lt); [|by rewrite H].
    apply OrderedTypeEx.String_as_OT.cmp_lt. eapply OrderedTypeEx.String_as_OT.lt_trans;
      by apply OrderedTypeEx.String_as_OT.cmp_lt.
Qed.


End KeyOrder.

(** X5.  The allocation table has one row for each price-group key of the
    input lines and no other row, and its rows are in the order of the
    keys. *)
Theorem final_df_one_row_per_key {sorter : Sorter} {Sok : SorterOk sorter}
    (df : list line_item) (total_due_value : Q) :
  let keys := map group_key (final_df df total_due_value) in
  NoDup keys /\
  sorted String.leb keys /\
  forall k, k ∈ keys <-> exists r, r ∈ df /\ price_group_key r = Some k.
Proof.
  cbv zeta. rewrite final_df_spec, map_map. cbn [group_row group_key].
  rewrite map_id. split; [apply NoDup_group_keys|]. split.
  - unfold group_keys. apply sort_sorted; [apply string_leb_total|apply string_leb_trans].
  - intros k. apply elem_of_group_keys.
Qed.

Lemma final_df_one_row_per_key_witness :
  let keys := map group_key (final_df sparse_rows 100) in
  NoDup keys /\
  sorted String.leb keys /\
  forall k, k ∈ keys <-> exists r, r ∈ sparse_rows /\ price_group_key r = Some k.
Proof.
  apply (final_df_one_row_per_key (sorter := insertion_sorter) sparse_rows 100%Q).
Defined.



(** ** The rows of the CSV *)

Section MoreRowFacts.
Context {sorter : Sorter}.

Lemma blank_row_lookup_any (num_columns i : nat) :
  blank_row num_columns !!! i = OStr "".
Proof.
  unfold blank_row. destruct (decide (i < num_columns)%nat) as [Hi|Hi].
  - by apply lookup_total_replicate_2.
  - rewrite list_lookup_total_alt, lookup_ge_None_2; [done|].
    rewrite length_replicate. lia.
Qed.

Lemma build_row_cells (ix : indices) (num_columns : nat) (g : alloc_row) :
  good_indices num_columns ix ->
  match build_row ix num_columns g with
  | Some row =>
      built_cells g = Some (row !!! material_index ix, row !!! amount_index ix)
  | None => built_cells g = None
  end.
Proof.
  intros []. unfold build_row, built_cells.
  destruct (top_material g) as [m|]; [|done]. cbn.
  destruct (isna (allocated_amount g)); [done|]. cbv zeta. unfold blank_row.
  rewrite list_lookup_total_insert_ne by done.
  rewrite !list_lookup_total_insert_eq
    by (by rewrite ?length_insert, length_replicate).
  done.
Qed.

Lemma build_row_other (ix : indices) (num_columns : nat) (g : alloc_row)
    (row : out_row) (i : nat) :
  build_row ix num_columns g = Some row ->
  i <> material_index ix -> i <> amount_index ix ->
  row !!! i = OStr "".
Proof.
  unfold build_row. destruct (top_material g) as [m|]; [|done].
  destruct (isna (allocated_amount g)); [done|]. cbv zeta. intros [= <-] Hm Ha.
  rewrite !list_lookup_total_insert_ne by done. apply blank_row_lookup_any.
Qed.

Lemma map_upc_other (ix : indices) (lookup : gmap string string) (row : out_row) (i : nat) :
  i <> upc_index ix -> map_upc ix lookup row !!! i = row !!! i.
Proof.
  intros Hi. unfold map_upc. destruct (row !!! material_index ix); try done.
  cbv zeta. destruct (negb _); by rewrite list_lookup_total_insert_ne.
Qed.

Lemma map_upcs_other (ix : indices) (master : result (list (option string * option string)))
    (rows : list out_row) (i : nat) :
  i <> upc_index ix ->
  map (fun row => row !!! i) (map_upcs ix master rows) = map (fun row => row !!! i) rows.
Proof.
  intros Hi. destruct master as [table|]; [|done]. cbn [map_upcs].
  rewrite map_map. apply map_ext. intros row. by apply map_upc_other.
Qed.

Lemma fill_quantity_other (ix : indices) (row : out_row) (i : nat) :
  i <> quantity_index ix -> fill_quantity ix row !!! i = row !!! i.
Proof.
  intros Hi. unfold fill_quantity.
  destruct (populated _); by rewrite list_lookup_total_insert_ne.
Qed.

Lemma length_map_upcs (ix : indices) (master : result (list (option string * option string)))
    (rows : list out_row) :
  length (map_upcs ix master rows) = length rows.
Proof. destruct master; cbn [map_upcs]; [apply length_map|done]. Qed.

Lemma length_build_rows (ix : indices) (num_columns : nat) (final : list alloc_row) :
  length (build_rows ix num_columns final) = length (List.filter buildable final).
Proof.
  unfold build_rows. induction final as [|g final IH]; [done|].
  cbn [omap list_omap List.filter]. fold (omap (build_row ix num_columns) final).
  unfold build_row at 1, buildable at 1.
  destruct (top_material g) as [m|]; cbn [notna andb]; [|exact IH].
  destruct (isna (allocated_amount g)); cbn [negb]; [exact IH|].
  cbv zeta. cbn [length]. by rewrite IH.
Qed.

(** The item number and amount cells of the data rows, group by group. *)
Lemma real_rows_cells (ix : indices) (num_columns : nat)
    (master : result (list (option string * option string)))
    (df : list line_item) (T : Q) :
  good_indices num_columns ix ->
  map (fun row => (row !!! material_index ix, row !!! amount_index ix))
      (real_rows ix num_columns master df T)
  = omap built_cells (final_df df T).
Proof.
  intros Hgood. unfold real_rows.
  assert (Hstep : forall rows,
    map (fun row => (row !!! material_index ix, row !!! amount_index ix))
        (map (fill_quantity ix) (map_upcs ix master rows))
    = map (fun row => (row !!! material_index ix, row !!! amount_index ix)) rows).
  { intros rows. destruct Hgood. rewrite map_map.
    destruct master as [table|]; cbn [map_upcs]; rewrite ?map_map; apply map_ext;
      intros row; rewrite !fill_quantity_other by done;
      by rewrite ?map_upc_other by done. }
  rewrite Hstep. unfold build_rows.
  induction (final_df df T) as [|g final IH]; [done|].
  cbn [omap list_omap]. pose proof (build_row_cells ix num_columns g Hgood) as Hg.
  destruct (build_row ix num_columns g) as [row|]; rewrite Hg; cbn [map]; by rewrite ?IH.
Qed.

End MoreRowFacts.
Section SavedRuns.
Context {sorter : Sorter}.

Lemma saved_rows (j : job) (read : nat -> frame) (skip : nat) (found : frame)
    (page : result string) (T : Q) (csv : csv_file) :
  workbook j = Ok read ->
  locate_header read = Some (skip, found) ->
  companion_pdf j = Some page ->
  extract_invoice_amount page = Ok T ->
  process_excel_file j = Saved csv ->
  exists ix,
    resolve_indices (csv_headers csv) = Some ix /\
    good_indices (length (csv_headers csv)) ix /\
    csv_rows csv
    = output_rows ix (length (csv_headers csv)) (master_table j)
                  (sort_by_key (dropna_key (rows found))) T.
Proof.
  intros Hwb Hloc Hpdf Hamt
    (read' & skip' & found' & page' & T' & cells & ix & Hwb' & Hloc' & Hpdf'
     & Hamt' & _ & Hix & _ & ->)%saved_inv.
  rewrite Hwb in Hwb'. injection Hwb' as <-.
  rewrite Hloc in Hloc'. injection Hloc' as <- <-.
  rewrite Hpdf in Hpdf'. injection Hpdf' as <-.
  rewrite Hamt in Hamt'. injection Hamt' as <-.
  exists ix. cbn [csv_headers csv_rows]. split; [done|]. split; [|done].
  by apply resolve_indices_good.
Qed.



(** A data row of a saved CSV comes from a group of the allocation table. *)
Lemma real_row_group (ix : indices) (num_columns : nat)
    (master : result (list (option string * option string)))
    (df : list line_item) (T : Q) (row : out_row) :
  good_indices num_columns ix ->
  row ∈ real_rows ix num_columns master df T ->
  exists g, g ∈ final_df df T /\
            built_cells g = Some (row !!! material_index ix, row !!! amount_index ix).
Proof.
  intros Hgood Hrow.
  assert (Hc : (row !!! material_index ix, row !!! amount_index ix)
               ∈ omap built_cells (final_df df T)).
  { rewrite <- (real_rows_cells ix num_columns master) by done.
    apply list_elem_of_fmap. by exists row. }
  apply list_elem_of_omap in Hc as (g & Hg & Hc). by exists g.
Qed.

Lemma length_real_rows (ix : indices) (num_columns : nat)
    (master : result (list (option string * option string)))
    (df : list line_item) (T : Q) :
  length (real_rows ix num_columns master df T)
  = length (List.filter buildable (final_df df T)).
Proof.
  unfold real_rows. by rewrite length_map, length_map_upcs, length_build_rows.
Qed.

Lemma trunc_toward_zero (m : Q) :
  ((0 <= m)%Q -> (inject_Z (trunc m) <= m)%Q /\ (m < inject_Z (trunc m) + 1)%Q) /\
  ((m <= 0)%Q -> (inject_Z (trunc m) - 1 < m)%Q /\ (m <= inject_Z (trunc m))%Q).
Proof.
  destruct m as [n d]. unfold trunc. cbn [Qnum Qden].
  set (q := (n ÷ Z.pos d)%Z).
  unfold Qle, Qlt, Qminus, Qplus, Qopp, inject_Z. cbn [Qnum Qden].
  rewrite ?Z.mul_1_r, ?Pos.mul_1_r, ?Pos.mul_1_l. cbn [Z.opp].
  split; intros Hn.
  - pose proof (Z.mul_quot_le n (Z.pos d) ltac:(lia) ltac:(lia)) as Hlo.
    pose proof (Z.mul_succ_quot_gt n (Z.pos d) ltac:(lia) ltac:(lia)) as Hhi.
    fold q in Hlo, Hhi. lia.
  - pose proof (Z.mul_quot_ge n (Z.pos d) ltac:(lia) ltac:(lia)) as Hhi.
    pose proof (Z.mul_pred_quot_lt n (Z.pos d) ltac:(lia) ltac:(lia)) as Hlo.
    fold q in Hlo, Hhi. lia.
Qed.

Lemma of_Z_reads_back (z : Z) :
  Z.of_int <$> NilZero.int_of_string (of_Z z) = Some z.
Proof.
  unfold of_Z. rewrite NilZero.isi.
  - cbn. by rewrite DecimalZ.of_to.
  - destruct z; cbn; [done|..]; intros [= H];
      by apply DecimalPos.Unsigned.to_uint_nonnil in H.
  - destruct z; cbn; [done|..]; intros [= H];
      by apply DecimalPos.Unsigned.to_uint_nonnil in H.
Qed.

End SavedRuns.
Section ItemText.

Lemma to_uint_no_leading_zero (p : positive) (d : Decimal.uint) :
  Pos.to_uint p <> Decimal.D0 d.
Proof.
  assert (Hn : Pos.to_uint p = Decimal.unorm (Pos.to_uint p)).
  { pose proof (DecimalPos.Unsigned.to_of (Pos.to_uint p)) as H.
    rewrite DecimalPos.Unsigned.of_to in H. exact H. }
  rewrite Hn. intros H.
  destruct (Decimal.nzhead (Pos.to_uint p)) eqn:Hz.
  - apply DecimalFacts.unorm_0 in Hz. rewrite <- Hn in Hz. by apply DecimalPos.Unsigned.to_uint_nonzero in Hz.
  - by apply DecimalFacts.nzhead_nonzero in Hz.
  - rewrite DecimalFacts.unorm_nzhead in H by (by rewrite Hz). by apply DecimalFacts.nzhead_nonzero in H.
  - rewrite DecimalFacts.unorm_nzhead in H by (by rewrite Hz). by apply DecimalFacts.nzhead_nonzero in H.
  - rewrite DecimalFacts.unorm_nzhead in H by (by rewrite Hz). by apply DecimalFacts.nzhead_nonzero in H.
  - rewrite DecimalFacts.unorm_nzhead in H by (by rewrite Hz). by apply DecimalFacts.nzhead_nonzero in H.
  - rewrite DecimalFacts.unorm_nzhead in H by (by rewrite Hz). by apply DecimalFacts.nzhead_nonzero in H.
  - rewrite DecimalFacts.unorm_nzhead in H by (by rewrite Hz). by apply DecimalFacts.nzhead_nonzero in H.
  - rewrite DecimalFacts.unorm_nzhead in H by (by rewrite Hz). by apply DecimalFacts.nzhead_nonzero in H.
  - rewrite DecimalFacts.unorm_nzhead in H by (by rewrite Hz). by apply DecimalFacts.nzhead_nonzero in H.
  - rewrite DecimalFacts.unorm_nzhead in H by (by rewrite Hz). by apply DecimalFacts.nzhead_nonzero in H.
Qed.

Lemma string_of_uint_digits (d : Decimal.uint) :
  all_chars is_digit (NilEmpty.string_of_uint d) = true.
Proof. induction d; cbn [NilEmpty.string_of_uint all_chars]; by rewrite ?IHd. Qed.

Lemma string_of_uint_canonical (d : Decimal.uint) :
  d <> Decimal.Nil -> (forall d', d <> Decimal.D0 d') ->
  canonical_digits (NilEmpty.string_of_uint d) = true /\
  NilEmpty.string_of_uint d <> "0" /\
  NilZero.string_of_uint d = NilEmpty.string_of_uint d.
Proof.
  intros Hnil Hz.
  destruct d; [done|by destruct (Hz d)|..];
    cbn [NilEmpty.string_of_uint NilZero.string_of_uint canonical_digits];
    rewrite string_of_uint_digits; done.
Qed.

Lemma of_Z_canonical (z : Z) : canonical_int (of_Z z) = true.
Proof.
  destruct z as [|p|p]; [done|..]; unfold of_Z; cbn [Z.to_int NilZero.string_of_int];
    destruct (string_of_uint_canonical (Pos.to_uint p)) as (Hc & Hne & ->);
    try apply DecimalPos.Unsigned.to_uint_nonnil; try apply to_uint_no_leading_zero.
  - revert Hc. unfold canonical_int, canonical_digits.
    destruct (NilEmpty.string_of_uint (Pos.to_uint p)) as [|c rest]; [done|].
    intros Hc. destruct (Ascii.eqb_spec c "-") as [->|_]; [done|]. exact Hc.
  - cbn [canonical_int]. rewrite Hc. cbn.
    destruct (String.eqb_spec (NilEmpty.string_of_uint (Pos.to_uint p)) "0"); done.
Qed.

Lemma digit_not_space (c : ascii) : is_digit c = true -> is_space c = false.
Proof.
  unfold is_digit, is_space. intros [H1 H2]%andb_prop.
  apply Nat.leb_le in H1. apply Nat.leb_le in H2.
  apply orb_false_intro; apply andb_false_intro2; apply Nat.leb_gt; lia.
Qed.

Lemma lstrip_no_space (c : ascii) (s : string) :
  is_space c = false -> lstrip (String c s) = String c s.
Proof. intros H. cbn. by rewrite H. Qed.

Lemma rstrip_no_space (s : string) :
  all_chars (fun c => negb (is_space c)) s = true -> rstrip s = s.
Proof.
  induction s as [|c s IH]; [done|]. cbn [all_chars rstrip].
  intros [Hc Hs]%andb_prop. rewrite (IH Hs).
  destruct s; [|done]. by destruct (is_space c).
Qed.

Lemma all_chars_impl (p q : ascii -> bool) (s : string) :
  (forall c, p c = true -> q c = true) ->
  all_chars p s = true -> all_chars q s = true.
Proof.
  intros Hpq. induction s as [|c s IH]; [done|]. cbn.
  intros [Hc Hs]%andb_prop. by rewrite (Hpq c Hc), IH.
Qed.

Lemma canonical_digits_no_space (s : string) :
  canonical_digits s = true -> all_chars (fun c => negb (is_space c)) s = true.
Proof.
  destruct s as [|c rest]; [done|]. cbn [canonical_digits all_chars].
  intros [[Hc Hrest]%andb_prop _]%andb_prop.
  rewrite (digit_not_space c Hc). cbn.
  apply (all_chars_impl is_digit); [|done].
  intros c' Hc'. by rewrite digit_not_space.
Qed.

Lemma canonical_int_strip (s : string) : canonical_int s = true -> strip s = s.
Proof.
  intros Hs.
  assert (Hns : all_chars (fun c => negb (is_space c)) s = true).
  { destruct s as [|c rest]; [done|]. cbn [canonical_int] in Hs.
    destruct (Ascii.eqb_spec c "-") as [->|_].
    - apply andb_prop in Hs as [Hs _]. cbn [all_chars].
      by rewrite canonical_digits_no_space.
    - by apply canonical_digits_no_space. }
  unfold strip. destruct s as [|c rest]; [done|].
  pose proof Hns as Hns'. cbn [all_chars] in Hns'. apply andb_prop in Hns' as [Hc _].
  apply negb_true_iff in Hc. rewrite lstrip_no_space by done.
  by apply rstrip_no_space.
Qed.



End ItemText.

(** X7.  A saved CSV has one row for each group that has a material and
    an amount, and blank rows up to 100: 100 rows when there are 100 such
    groups or fewer, and one row for each group when there are more. *)
Theorem csv_row_count {sorter : Sorter}
    (j : job) (read : nat -> frame) (skip : nat) (found : frame)
    (page : result string) (total_due_value : Q) (csv : csv_file) :
  workbook j = Ok read ->
  locate_header read = Some (skip, found) ->
  companion_pdf j = Some page ->
  extract_invoice_amount page = Ok total_due_value ->
  process_excel_file j = Saved csv ->
  let final := final_df (sort_by_key (dropna_key (rows found))) total_due_value in
  length (csv_rows csv) = Nat.max 100 (length (List.filter buildable final)).
Proof.
  intros Hwb Hloc Hpdf Hamt Hrun final.
  destruct (saved_rows j read skip found page total_due_value csv)
    as (ix & Hix & Hgood & ->); try done.
  rewrite output_rows_spec, length_app, length_replicate, length_real_rows.
  fold final. lia.
Qed.

Lemma csv_row_count_witness :
  exists csv, process_excel_file good_job = Saved csv /\ length (csv_rows csv) = 100%nat.
Proof.
  eexists. split; [reflexivity|].
  etransitivity;
    [apply (csv_row_count good_job two_groups_workbook 2 (two_groups_workbook 2)
              (Ok page_1000) (100000 # 100)%Q); reflexivity|].
  by vm_compute.
Defined.








(** X10.  In a saved CSV every cell outside the four columns Item_Number,
    Extended_Amount, UPC_Number and Quantity is the empty string. *)
Theorem cells_outside_the_four_columns_are_blank {sorter : Sorter}
    (j : job) (csv : csv_file) :
  process_excel_file j = Saved csv ->
  exists ix,
    resolve_indices (csv_headers csv) = Some ix /\
    forall row i,
      row ∈ csv_rows csv ->
      i <> material_index ix -> i <> amount_index ix ->
      i <> upc_index ix -> i <> quantity_index ix ->
      row !!! i = OStr "".
Proof.
  intros (read & skip & found & page & T & cells & ix & _ & _ & _ & _ & _
          & Hix & _ & ->)%saved_inv.
  cbn [csv_rows csv_headers]. exists ix. split; [done|].
  intros row i Hrow Hm Ha Hu Hq. rewrite output_rows_spec in Hrow.
  apply elem_of_app in Hrow as [Hrow|Hrow].
  - unfold real_rows in Hrow. apply list_elem_of_fmap in Hrow as (row1 & -> & Hrow1).
    rewrite fill_quantity_other by done.
    assert (Hin : row1 !!! i ∈ map (fun row => row !!! i)
              (build_rows ix (length (template_headers cells))
                 (final_df (sort_by_key (dropna_key (rows found))) T))).
    { rewrite <- (map_upcs_other ix (master_table j)) by done.
      apply list_elem_of_fmap. by exists row1. }
    apply list_elem_of_fmap in Hin as (row0 & -> & Hrow0).
    unfold build_rows in Hrow0. apply list_elem_of_omap in Hrow0 as (g & _ & Hg).
    by eapply build_row_other.
  - apply elem_of_replicate_inv in Hrow as ->. apply blank_row_lookup_any.
Qed.

Lemma cells_outside_the_four_columns_are_blank_witness :
  exists csv ix,
    process_excel_file good_job = Saved csv /\
    resolve_indices (csv_headers csv) = Some ix /\
    forall row i,
      row ∈ csv_rows csv ->
      i <> material_index ix -> i <> amount_index ix ->
      i <> upc_index ix -> i <> quantity_index ix ->
      row !!! i = OStr "".
Proof.
  destruct (cells_outside_the_four_columns_are_blank good_job _ eq_refl)
    as (ix & Hix & H).
  by eexists _, ix.
Defined.


(** X11.  In a saved CSV an item number is the text of an integer as
    [str] prints it: an optional minus sign and digits without leading
    zero, with no white space around it. *)
Theorem item_number_is_plain_integer_text {sorter : Sorter} (j : job) (csv : csv_file) :
  process_excel_file j = Saved csv ->
  exists ix,
    resolve_indices (csv_headers csv) = Some ix /\
    forall row,
      row ∈ csv_rows csv ->
      populated (row !!! material_index ix) = true ->
      exists s, row !!! material_index ix = OStr s /\
                canonical_int s = true /\ strip s = s.
Proof.
  intros (read & skip & found & page & T & cells & ix & _ & _ & _ & _ & _
          & Hix & _ & ->)%saved_inv.
  cbn [csv_rows csv_headers]. exists ix. split; [done|].
  pose proof (resolve_indices_good _ _ Hix) as Hgood.
  intros row. rewrite output_rows_spec, elem_of_app. intros [Hrow|Hrow] Hpop.
  - apply (real_row_spec ix _ Hgood) in Hrow as (_ & z & Hz & _).
    exists (of_Z z). split; [done|]. split; [apply of_Z_canonical|].
    apply canonical_int_strip, of_Z_canonical.
  - apply elem_of_replicate_inv in Hrow as ->. destruct Hgood.
    by rewrite blank_row_lookup in Hpop.
Qed.

Lemma item_number_is_plain_integer_text_witness :
  exists csv ix,
    process_excel_file good_job = Saved csv /\
    resolve_indices (csv_headers csv) = Some ix /\
    forall row,
      row ∈ csv_rows csv ->
      populated (row !!! material_index ix) = true ->
      exists s, row !!! material_index ix = OStr s /\
                canonical_int s = true /\ strip s = s.
Proof.
  destruct (item_number_is_plain_integer_text good_job _ eq_refl)
    as (ix & Hix & H).
  by eexists _, ix.
Defined.


(** X12.  The item number of a data row is the material of its group with
    the fraction cut off, toward zero: it reads back as an integer that
    lies between zero and the material and is less than 1 away from
    it. *)
Theorem item_number_truncates_material {sorter : Sorter}
    (j : job) (read : nat -> frame) (skip : nat) (found : frame)
    (page : result string) (total_due_value : Q) (csv : csv_file) :
  workbook j = Ok read ->
  locate_header read = Some (skip, found) ->
  companion_pdf j = Some page ->
  extract_invoice_amount page = Ok total_due_value ->
  process_excel_file j = Saved csv ->
  exists ix,
    resolve_indices (csv_headers csv) = Some ix /\
    forall row,
      row ∈ csv_rows csv ->
      populated (row !!! material_index ix) = true ->
      exists g m z,
        g ∈ final_df (sort_by_key (dropna_key (rows found))) total_due_value /\
        top_material g = Some m /\
        row !!! material_index ix = OStr (of_Z z) /\
        Z.of_int <$> NilZero.int_of_string (of_Z z) = Some z /\
        ((0 <= m)%Q -> (inject_Z z <= m)%Q /\ (m < inject_Z z + 1)%Q) /\
        ((m <= 0)%Q -> (inject_Z z - 1 < m)%Q /\ (m <= inject_Z z)%Q).
Proof.
  intros Hwb Hloc Hpdf Hamt Hrun.
  destruct (saved_rows j read skip found page total_due_value csv)
    as (ix & Hix & Hgood & Hrows); try done.
  exists ix. split; [done|]. intros row Hrow Hpop.
  rewrite Hrows, output_rows_spec in Hrow. apply elem_of_app in Hrow as [Hrow|Hrow].
  - apply (real_row_group ix _ _ _ _ _ Hgood) in Hrow as (g & Hg & Hc).
    unfold built_cells in Hc. destruct (top_material g) as [m|] eqn:Hm; [|done].
    cbn in Hc. destruct (isna (allocated_amount g)); [done|].
    injection Hc as Hc _. exists g, m, (trunc m).
    split; [done|]. split; [done|]. split; [done|].
    split; [apply of_Z_reads_back|]. apply trunc_toward_zero.
  - apply elem_of_replicate_inv in Hrow as ->. destruct Hgood.
    by rewrite blank_row_lookup in Hpop.
Qed.

Lemma item_number_truncates_material_witness :
  exists csv ix,
    process_excel_file good_job = Saved csv /\
    resolve_indices (csv_headers csv) = Some ix /\
    forall row,
      row ∈ csv_rows csv ->
      populated (row !!! material_index ix) = true ->
      exists z, row !!! material_index ix = OStr (of_Z z).
Proof.
  destruct (item_number_truncates_material good_job two_groups_workbook 2
              (two_groups_workbook 2) (Ok page_1000) (100000 # 100)%Q _
              eq_refl eq_refl eq_refl eq_refl eq_refl) as (ix & Hix & H).
  eexists _, ix. split; [reflexivity|]. split; [exact Hix|].
  intros row Hrow Hpop. destruct (H row Hrow Hpop) as (_ & _ & z & _ & _ & Hz & _).
  by exists z.
Defined.


(** ** The master lookup *)







(** ** The header locator *)

(** X16.  When the locator selects a frame, it is the frame read at a skip
    count of 4 at most that has the three required columns, and no
    smaller skip count shows them; a header below the fifth row is never
    found. *)
Theorem header_locator_sound (read : nat -> frame) (k : nat) (df : frame) :
  locate_header read = Some (k, df) ->
  (k <= 4)%nat /\ df = read k /\ has_required_columns df = true /\
  forall i, (i < k)%nat -> has_required_columns (read i) = false.
Proof.
  unfold locate_header. cbn [seq try_skips].
  destruct (has_required_columns (read 0%nat)) eqn:H0;
    [intros [= <- <-]; repeat split; [lia|done|]; intros i Hi; lia|].
  destruct (has_required_columns (read 1%nat)) eqn:H1;
    [intros [= <- <-]; repeat split; [lia|done|];
     intros i Hi; repeat (destruct i as [|i]; [done|]); lia|].
  destruct (has_required_columns (read 2%nat)) eqn:H2;
    [intros [= <- <-]; repeat split; [lia|done|];
     intros i Hi; repeat (destruct i as [|i]; [done|]); lia|].
  destruct (has_required_columns (read 3%nat)) eqn:H3;
    [intros [= <- <-]; repeat split; [lia|done|];
     intros i Hi; repeat (destruct i as [|i]; [done|]); lia|].
  destruct (has_required_columns (read 4%nat)) eqn:H4;
    [intros [= <- <-]; repeat split; [lia|done|];
     intros i Hi; repeat (destruct i as [|i]; [done|]); lia|].
  done.
Qed.

Lemma header_locator_sound_witness :
  (2 <= 4)%nat /\ two_groups_workbook 2 = two_groups_workbook 2 /\
  has_required_columns (two_groups_workbook 2) = true /\
  forall i, (i < 2)%nat -> has_required_columns (two_groups_workbook i) = false.
Proof.
  apply (header_locator_sound two_groups_workbook 2 (two_groups_workbook 2)).
  reflexivity.
Defined.

(** ** File names and folders *)

Section PathFacts.
Local Open Scope string_scope.

Lemma all_chars_app (p : ascii -> bool) (a b : string) :
  all_chars p (a ++ b) = all_chars p a && all_chars p b.
Proof. induction a as [|c a IH]; [done|]. simpl. by rewrite IH, andb_assoc. Qed.

Lemma string_app_inv_head (a b c : string) : a ++ b = a ++ c -> b = c.
Proof. induction a as [|x a IH]; [done|]. simpl. intros [= H]. by apply IH. Qed.

Lemma rsplit1_None (c : ascii) (s : string) :
  all_chars (fun x => negb (Ascii.eqb x c)) s = true -> rsplit1 c s = None.
Proof.
  induction s as [|x s IH]; [done|]. simpl. intros [Hx Hs]%andb_prop.
  rewrite (IH Hs). apply negb_true_iff in Hx. by rewrite Hx.
Qed.

Lemma rsplit1_app (c : ascii) (a b : string) :
  all_chars (fun x => negb (Ascii.eqb x c)) b = true ->
  rsplit1 c (a ++ String c b) = Some (a, b).
Proof.
  intros Hb. induction a as [|x a IH]; simpl.
  - by rewrite (rsplit1_None c b Hb), Ascii.eqb_refl.
  - by rewrite IH.
Qed.

Lemma rsplit1_Some (c : ascii) (s a b : string) :
  rsplit1 c s = Some (a, b) -> s = a ++ String c b.
Proof.
  revert a. induction s as [|x s IH]; intros a; simpl; [done|].
  destruct (rsplit1 c s) as [[a' b']|].
  - intros [= <- <-]. simpl. by rewrite (IH a' eq_refl).
  - destruct (Ascii.eqb_spec x c) as [->|]; [|done]. by intros [= <- <-].
Qed.

Lemma no_sep_starts (name : string) : no_sep name = true -> starts_with_sep name = false.
Proof.
  destruct name as [|c name]; [done|]. unfold no_sep. simpl.
  intros [Hc _]%andb_prop. by apply negb_true_iff in Hc.
Qed.

Lemma no_sep_ends (name : string) : no_sep name = true -> ends_with_sep name = false.
Proof.
  unfold no_sep. induction name as [|c name IH]; [done|]. simpl.
  intros [Hc Hn]%andb_prop. apply negb_true_iff in Hc.
  destruct name; [done|]. by apply IH.
Qed.

Lemma ends_with_sep_app (a b : string) :
  b <> EmptyString -> ends_with_sep (a ++ b) = ends_with_sep b.
Proof.
  intros Hb. induction a as [|c a IH]; [done|]. simpl.
  destruct (a ++ b) eqn:E; [|done].
  destruct a; [|done]. simpl in E. by subst.
Qed.

Lemma join_folder (folder name : string) :
  folder <> EmptyString -> ends_with_sep folder = false -> no_sep name = true ->
  join folder name = folder ++ "/" ++ name.
Proof.
  intros Hf He Hn. unfold join. rewrite (no_sep_starts name Hn), He.
  destruct (String.eqb_spec folder ""); done.
Qed.

Lemma join_inj (folder a b : string) :
  folder <> EmptyString -> ends_with_sep folder = false ->
  no_sep a = true -> no_sep b = true ->
  join folder a = join folder b -> a = b.
Proof.
  intros Hf He Ha Hb. rewrite !join_folder by done.
  intros H%string_app_inv_head. by injection H.
Qed.

Lemma join_not_folder (folder name : string) :
  folder <> EmptyString -> ends_with_sep folder = false ->
  name <> EmptyString -> no_sep name = true ->
  ends_with_sep (join folder name) = false.
Proof.
  intros Hf He Hne Hn. rewrite join_folder by done.
  rewrite ends_with_sep_app by done.
  change ("/" ++ name) with (String "/" name).
  destruct name as [|c name]; [done|].
  change (ends_with_sep (String c name) = false). by apply no_sep_ends.
Qed.

Lemma rsplit1_folder (folder name : string) :
  no_sep name = true ->
  rsplit1 "/" (folder ++ "/" ++ name) = Some (folder, name).
Proof. intros Hn. by apply rsplit1_app. Qed.

Lemma basename_folder (folder name : string) :
  no_sep name = true -> basename (folder ++ "/" ++ name) = name.
Proof. intros Hn. unfold basename. by rewrite rsplit1_folder. Qed.

Lemma dirname_input (name : string) :
  no_sep name = true -> dirname (INPUT_FOLDER ++ "/" ++ name) = INPUT_FOLDER.
Proof. intros Hn. unfold dirname. by rewrite rsplit1_folder. Qed.

Lemma splitext_root_name (name : string) :
  no_sep name = true ->
  splitext_root name
  = match rsplit1 "." name with
    | Some (root, _) => if only_dots root then name else root
    | None => name
    end.
Proof.
  intros Hn. unfold splitext_root. rewrite (rsplit1_None "/" name Hn).
  by destruct (rsplit1 "." name) as [[root ext]|].
Qed.

Lemma splitext_root_stem (stem ext : string) :
  no_sep stem = true -> no_sep ext = true -> no_dot ext = true ->
  only_dots stem = false ->
  splitext_root (stem ++ "." ++ ext) = stem.
Proof.
  intros Hs He Hd Ho. rewrite splitext_root_name.
  - change ("." ++ ext) with (String "." ext).
    rewrite (rsplit1_app "." stem ext Hd). by rewrite Ho.
  - unfold no_sep in *. rewrite all_chars_app, Hs. by simpl.
Qed.

Lemma splitext_root_no_sep (name : string) :
  no_sep name = true -> no_sep (splitext_root name) = true.
Proof.
  intros Hn. rewrite splitext_root_name by done.
  destruct (rsplit1 "." name) as [[root ext]|] eqn:E; [|done].
  destruct (only_dots root); [done|].
  apply rsplit1_Some in E. subst name. unfold no_sep in *.
  rewrite all_chars_app in Hn. by apply andb_prop in Hn as [? _].
Qed.

Lemma no_sep_app (a b : string) :
  no_sep a = true -> no_sep b = true -> no_sep (a ++ b) = true.
Proof. unfold no_sep. intros Ha Hb. by rewrite all_chars_app, Ha, Hb. Qed.

Lemma INPUT_FOLDER_ok : INPUT_FOLDER <> EmptyString /\ ends_with_sep INPUT_FOLDER = false.
Proof. done. Qed.

Lemma OUTPUT_FOLDER_ok : OUTPUT_FOLDER <> EmptyString /\ ends_with_sep OUTPUT_FOLDER = false.
Proof. done. Qed.

Lemma input_path (name : string) :
  no_sep name = true -> join INPUT_FOLDER name = INPUT_FOLDER ++ "/" ++ name.
Proof. intros Hn. by apply join_folder. Qed.

Lemma pdf_path_input (name : string) :
  no_sep name = true ->
  pdf_path (join INPUT_FOLDER name)
  = INPUT_FOLDER ++ "/" ++ splitext_root name ++ ".pdf".
Proof.
  intros Hn. unfold pdf_path. rewrite input_path by done.
  rewrite basename_folder, dirname_input by done.
  apply input_path, no_sep_app; [by apply splitext_root_no_sep|done].
Qed.

Lemma output_path_input (name : string) :
  no_sep name = true ->
  output_path OUTPUT_FOLDER (join INPUT_FOLDER name)
  = OUTPUT_FOLDER ++ "/" ++ splitext_root name ++ ".csv".
Proof.
  intros Hn. unfold output_path. rewrite input_path by done.
  rewrite basename_folder by done.
  apply join_folder; [done|done|].
  apply no_sep_app; [by apply splitext_root_no_sep|done].
Qed.

(** X17.  For an upload named [stem.ext], the run looks for the companion
    PDF at [stem.pdf] in the input folder and writes its CSV to
    [stem.csv] in the output folder; the extension is the text after the
    last point of the name. *)
Theorem paths_follow_the_workbook_name (stem ext : string) :
  no_sep stem = true -> no_sep ext = true -> no_dot ext = true ->
  only_dots stem = false ->
  let input_file_path := join INPUT_FOLDER (stem ++ "." ++ ext) in
  input_file_path = "/path/to/input/" ++ stem ++ "." ++ ext /\
  pdf_path input_file_path = "/path/to/input/" ++ stem ++ ".pdf" /\
  output_path OUTPUT_FOLDER input_file_path = "/path/to/output/" ++ stem ++ ".csv".
Proof.
  intros Hs He Hd Ho. cbv zeta.
  assert (Hn : no_sep (stem ++ "." ++ ext) = true)
    by (apply no_sep_app; [done|by apply (no_sep_app ".")]).
  rewrite pdf_path_input, output_path_input, input_path by done.
  by rewrite splitext_root_stem.
Qed.

Lemma paths_follow_the_workbook_name_witness :
  pdf_path (join INPUT_FOLDER "inv.2024.xlsx") = "/path/to/input/inv.2024.pdf" /\
  output_path OUTPUT_FOLDER (join INPUT_FOLDER "inv.2024.xlsx")
  = "/path/to/output/inv.2024.csv".
Proof.
  apply (paths_follow_the_workbook_name "inv.2024" "xlsx"); reflexivity.
Defined.

End PathFacts.

Section Uploads.
Context {sorter : Sorter}.
Local Open Scope string_scope.

Lemma response_of_outcome (j : job) :
  process_invoice (Request true true j)
  = match process_excel_file j with
    | Raised e => Response 500 (ErrorBody ("Error processing files: " ++ e))
    | _ => Response 200 (MessageBody "Files processed successfully!")
    end.
Proof. done. Qed.

(** The job of an upload, and what the upload leaves in the folders. *)
Lemma process_invoice_at_eq (s : site) (d : disk)
    (excel_filename : string) (excel_file : file)
    (pdf_filename : string) (pdf_file : file) :
  excel_filename <> "" -> no_sep excel_filename = true ->
  pdf_filename <> "" -> no_sep pdf_filename = true ->
  let stem := splitext_root excel_filename in
  let j := uploaded_job s d stem excel_filename excel_file pdf_filename pdf_file in
  process_invoice_at s d
    (Upload (Some (excel_filename, excel_file)) (Some (pdf_filename, pdf_file)))
  = (Some (process_invoice (Request true true j)),
     Disk (<[INPUT_FOLDER ++ "/" ++ pdf_filename := pdf_file]>
             (<[INPUT_FOLDER ++ "/" ++ excel_filename := excel_file]> (input_files d)))
          match process_excel_file j with
          | Saved csv => <[OUTPUT_FOLDER ++ "/" ++ stem ++ ".csv" := csv]> (output_files d)
          | _ => output_files d
          end).
Proof.
  intros Hen Hes Hpn Hps stem j.
  unfold process_invoice_at. cbn [excel_part pdf_part]. cbv zeta. unfold save.
  destruct INPUT_FOLDER_ok as [Hin1 Hin2].
  rewrite !join_not_folder by done.
  unfold process_excel_file_at. cbn [input_files output_files].
  assert (Hj : job_at s
                 (Disk (<[join INPUT_FOLDER pdf_filename := pdf_file]>
                          (<[join INPUT_FOLDER excel_filename := excel_file]>
                             (input_files d)))
                       (output_files d))
                 (join INPUT_FOLDER excel_filename) = j).
  { unfold job_at, j, uploaded_job. cbn [input_files]. f_equal.
    - destruct (String.eqb_spec pdf_filename excel_filename) as [->|Hne].
      + by rewrite lookup_insert_eq.
      + rewrite lookup_insert_ne, lookup_insert_eq; [done|].
        intros H. by apply join_inj in H.
    - rewrite pdf_path_input by done. fold stem. f_equal.
      assert (Hstem : no_sep (stem ++ ".pdf") = true)
        by (apply no_sep_app; [by apply splitext_root_no_sep|done]).
      rewrite <- (input_path (stem ++ ".pdf")) by done.
      destruct (String.eqb_spec pdf_filename (stem ++ ".pdf")) as [->|Hp].
      { by rewrite lookup_insert_eq. }
      rewrite lookup_insert_ne by (intros H; by apply join_inj in H).
      destruct (String.eqb_spec excel_filename (stem ++ ".pdf")) as [He|He].
      { by rewrite <- He, lookup_insert_eq. }
      rewrite lookup_insert_ne by (intros H; by apply join_inj in H).
      done. }
  rewrite Hj, response_of_outcome, output_path_input by done. fold stem.
  rewrite <- !input_path by done.
  by destruct (process_excel_file j).
Qed.

Lemma uploaded_job_other_pdf (s : site) (d : disk) (stem : string)
    (excel_filename : string) (excel_file : file)
    (pdf_filename : string) (pdf_file pdf_file' : file) :
  pdf_filename <> stem ++ ".pdf" -> pdf_filename <> excel_filename ->
  uploaded_job s d stem excel_filename excel_file pdf_filename pdf_file
  = uploaded_job s d stem excel_filename excel_file pdf_filename pdf_file'.
Proof.
  intros Hp He. unfold uploaded_job.
  destruct (String.eqb_spec pdf_filename excel_filename); [done|].
  by destruct (String.eqb_spec pdf_filename (stem ++ ".pdf")).
Qed.


Lemma download_file_spec (d : disk) (filename : string) :
  no_sep filename = true ->
  download_file d filename
  = match output_files d !! (OUTPUT_FOLDER ++ "/" ++ filename) with
    | Some csv => Attachment csv
    | None => NotFound (Response 404 (ErrorBody "File not found!"))
    end.
Proof.
  intros Hn. unfold download_file. cbv zeta. by rewrite join_folder.
Qed.

End Uploads.

(** X18.  An upload whose two files have proper names runs on the files
    of the input folder as they are once both parts are saved: the
    workbook is what was saved last under the name of the Excel part, and
    the companion PDF is the file named after the workbook, [stem.pdf],
    whichever upload left it there.  The answer is that of
    [process_invoice] on this job, a saved CSV is stored as [stem.csv] in
    the output folder, and both parts stay in the input folder. *)
Theorem upload_runs_on_named_files {sorter : Sorter} (s : site) (d : disk)
    (excel_filename : string) (excel_file : file)
    (pdf_filename : string) (pdf_file : file) :
  excel_filename <> ""%string -> no_sep excel_filename = true ->
  pdf_filename <> ""%string -> no_sep pdf_filename = true ->
  let stem := splitext_root excel_filename in
  let j := uploaded_job s d stem excel_filename excel_file pdf_filename pdf_file in
  let done := process_invoice_at s d
                (Upload (Some (excel_filename, excel_file))
                        (Some (pdf_filename, pdf_file))) in
  fst done = Some (process_invoice (Request true true j)) /\
  output_files (snd done)
  = match process_excel_file j with
    | Saved csv =>
        <[(OUTPUT_FOLDER ++ "/" ++ stem ++ ".csv")%string := csv]> (output_files d)
    | _ => output_files d
    end /\
  input_files (snd done)
  = <[(INPUT_FOLDER ++ "/" ++ pdf_filename)%string := pdf_file]>
      (<[(INPUT_FOLDER ++ "/" ++ excel_filename)%string := excel_file]> (input_files d)).
Proof.
  intros Hen Hes Hpn Hps stem j. cbv zeta.
  rewrite process_invoice_at_eq by done. fold stem j.
  cbn [fst snd input_files output_files]. split; [done|]. split; [|done].
  by destruct (process_excel_file j).
Qed.

Lemma upload_runs_on_named_files_witness :
  let done := process_invoice_at office empty_disk
                (Upload (Some ("inv.xlsx"%string, workbook_file))
                        (Some ("inv.pdf"%string, invoice_pdf))) in
  fst done = Some (Response 200 (MessageBody "Files processed successfully!")) /\
  output_files (snd done) !! "/path/to/output/inv.csv"%string <> None.
Proof.
  destruct (upload_runs_on_named_files office empty_disk
              "inv.xlsx" workbook_file "inv.pdf" invoice_pdf)
    as (Hr & Ho & _); [done..|].
  cbv zeta. rewrite Hr, Ho. split; [by vm_compute|]. by vm_compute.
Defined.

(** X19.  The content of the uploaded PDF is not read when its name is
    neither that of the workbook with the extension [pdf] nor that of the
    Excel part: the answer and the output folder are the same for every
    such PDF. *)
Theorem pdf_under_another_name_is_not_read {sorter : Sorter} (s : site) (d : disk)
    (excel_filename : string) (excel_file : file)
    (pdf_filename : string) (pdf_file pdf_file' : file) :
  excel_filename <> ""%string -> no_sep excel_filename = true ->
  pdf_filename <> ""%string -> no_sep pdf_filename = true ->
  pdf_filename <> (splitext_root excel_filename ++ ".pdf")%string ->
  pdf_filename <> excel_filename ->
  let run f := process_invoice_at s d
                 (Upload (Some (excel_filename, excel_file)) (Some (pdf_filename, f))) in
  fst (run pdf_file) = fst (run pdf_file') /\
  output_files (snd (run pdf_file)) = output_files (snd (run pdf_file')).
Proof.
  intros Hen Hes Hpn Hps Hp He. cbv beta zeta.
  rewrite !process_invoice_at_eq by done. cbn [fst snd output_files].
  by rewrite (uploaded_job_other_pdf s d _ _ _ _ pdf_file pdf_file').
Qed.

Lemma pdf_under_another_name_is_not_read_witness :
  let run f := process_invoice_at office empty_disk
                 (Upload (Some ("inv.xlsx"%string, workbook_file))
                         (Some ("invoice.pdf"%string, f))) in
  fst (run invoice_pdf) = fst (run workbook_file) /\
  output_files (snd (run invoice_pdf)) = output_files (snd (run workbook_file)).
Proof.
  apply (pdf_under_another_name_is_not_read office empty_disk
           "inv.xlsx" workbook_file "invoice.pdf" invoice_pdf workbook_file); done.
Defined.



(** X21.  After an upload, downloading [stem.csv] gives the CSV of this
    run when the run saved one, and otherwise what the output folder
    held before; the download of every other file name is as before. *)
Theorem download_after_upload {sorter : Sorter} (s : site) (d : disk)
    (excel_filename : string) (excel_file : file)
    (pdf_filename : string) (pdf_file : file) :
  excel_filename <> ""%string -> no_sep excel_filename = true ->
  pdf_filename <> ""%string -> no_sep pdf_filename = true ->
  let stem := splitext_root excel_filename in
  let j := uploaded_job s d stem excel_filename excel_file pdf_filename pdf_file in
  let d' := snd (process_invoice_at s d
                   (Upload (Some (excel_filename, excel_file))
                           (Some (pdf_filename, pdf_file)))) in
  download_file d' (stem ++ ".csv")
  = match process_excel_file j with
    | Saved csv => Attachment csv
    | _ => download_file d (stem ++ ".csv")
    end /\
  forall filename,
    no_sep filename = true -> filename <> (stem ++ ".csv")%string ->
    download_file d' filename = download_file d filename.
Proof.
  intros Hen Hes Hpn Hps stem j. cbv zeta.
  rewrite process_invoice_at_eq by done. cbn [snd]. fold stem j.
  assert (Hstem : no_sep (stem ++ ".csv") = true)
    by (apply no_sep_app; [by apply splitext_root_no_sep|done]).
  split.
  - rewrite !download_file_spec by done. cbn [output_files].
    destruct (process_excel_file j); [done| |done]. by rewrite lookup_insert_eq.
  - intros filename Hn Hne. rewrite !download_file_spec by done. cbn [output_files].
    destruct (process_excel_file j); [done| |done].
    rewrite lookup_insert_ne; [done|].
    intros H%string_app_inv_head. by injection H.
Qed.

Lemma download_after_upload_witness :
  let d' := snd (process_invoice_at office empty_disk
                   (Upload (Some ("inv.xlsx"%string, workbook_file))
                           (Some ("inv.pdf"%string, invoice_pdf)))) in
  (exists csv, download_file d' "inv.csv" = Attachment csv) /\
  download_file d' "other.csv"
  = NotFound (Response 404 (ErrorBody "File not found!")).
Proof.
  destruct (download_after_upload office empty_disk
              "inv.xlsx" workbook_file "inv.pdf" invoice_pdf)
    as (Hd & Hother); [done..|].
  cbv zeta. split.
  - eexists. etransitivity; [exact Hd|]. reflexivity.
  - by rewrite (Hother "other.csv").
Defined.
